(** * Go Responsiveness: a shallow embedding of the orchestrator and its helpers

The development follows the layout of the repository:

- [lgc]        : [lgc/collection.go], the mutex-guarded pool of load
                 generating connections;
- [utilities]  : [utilities/utilities.go], the generic helpers
                 ([Iota], [CalculatePercentile], ...);
- [qualityattenuation] : the latency summary that the unit tests
                 [TestBasicSimpleQualityAttenuation] and [TestManySamples]
                 exercise;
- [networkQuality] : the [main] function of the command line client
                 (event loop, teardown, final report).

Go values are modelled as the code has them: [int] as [Z] with the
64-bit wrap-around written out where arithmetic is done, [float64] as
the kernel's binary64 floats, slices as lists, a call that can panic
as a result type with a [Panic] outcome. *)

From Stdlib Require Import ZArith List Bool Lia String Ascii Permutation Sorted.
From Stdlib Require Import Floats Uint63.
Import ListNotations.

Local Open Scope Z_scope.

(* Decimal constants of the source are read as the nearest binary64 value,
   as the Go compiler reads them. *)
Set Warnings "-inexact-float".

(** ** Outcomes of Go calls *)

(** A Go function of type [(T, error)] either returns a value, returns a
non-nil [error] (we keep the message), or panics. *)
Inductive outcome (A : Type) : Type :=
| Ok (a : A)
| Err (msg : string)
| Panic.

Arguments Ok {A} a.
Arguments Err {A} msg.
Arguments Panic {A}.

(** Go slice indexing [s[i]]: a run-time panic unless [0 <= i < len(s)]. *)
Definition index {A : Type} (s : list A) (i : Z) : option A :=
  if i <? 0 then None else nth_error s (Z.to_nat i).

Definition len {A : Type} (s : list A) : Z := Z.of_nat (List.length s).

(** ** Package lgc: the connection collection *)

Module lgc.

(** [sync.Mutex].  A Go mutex is not associated with a goroutine: its
  whole state is whether it is locked. *)
Record Mutex : Type := { locked : bool }.

(** [TryLock] acquires the mutex when it is free and reports whether it
  did. *)
Definition TryLock (m : Mutex) : Mutex * bool :=
  if locked m then (m, false) else ({| locked := true |}, true).

(** [Unlock] of a mutex that is not locked is a fatal run-time error. *)
Definition Unlock (m : Mutex) : option Mutex :=
  if locked m then Some {| locked := false |} else None.

(** [Lock] on a held mutex blocks; [None] stands for the blocked call. *)
Definition Lock_ (m : Mutex) : option Mutex :=
  if locked m then None else Some {| locked := true |}.

Section Collection.

(** The interface type of the elements. *)
Variable LoadGeneratingConnection : Type.

Record LoadGeneratingConnectionCollection : Type := {
  Lock : Mutex;
  LGCs : list LoadGeneratingConnection
}.

Definition NewLoadGeneratingConnectionCollection
  : LoadGeneratingConnectionCollection :=
  {| Lock := {| locked := false |}; LGCs := [] |}.

Definition with_Lock (collection : LoadGeneratingConnectionCollection)
  (m : Mutex) : LoadGeneratingConnectionCollection :=
  {| Lock := m; LGCs := LGCs collection |}.

(** [Get].  The returned pointer (the address of slot [idx] of the
    slice) is represented by the element stored in that slot. *)
Definition Get (collection : LoadGeneratingConnectionCollection) (idx : Z)
  : LoadGeneratingConnectionCollection * outcome LoadGeneratingConnection :=
  match TryLock (Lock collection) with
  | (m, true) =>
      match Unlock m with
      | Some m' => (with_Lock collection m', Err "collection is unlocked")
      | None => (with_Lock collection m, Panic)
      end
  | (_, false) =>
      if idx >? len (LGCs collection) then
        (collection, Err "index too large")
      else
        match index (LGCs collection) idx with
        | Some conn => (collection, Ok conn)
        | None => (collection, Panic)
        end
  end.

Definition Append (collection : LoadGeneratingConnectionCollection)
  (conn : LoadGeneratingConnection)
  : LoadGeneratingConnectionCollection * outcome unit :=
  match TryLock (Lock collection) with
  | (m, true) =>
      match Unlock m with
      | Some m' => (with_Lock collection m', Err "collection is unlocked")
      | None => (with_Lock collection m, Panic)
      end
  | (_, false) =>
      ({| Lock := Lock collection; LGCs := LGCs collection ++ [conn] |},
       Ok tt)
  end.

Definition Len (collection : LoadGeneratingConnectionCollection) : Z :=
  len (LGCs collection).

(** *** Sequences of operations

    What a client can do with a collection through its methods and its
    mutex.  A run stops at the first panic or blocked [Lock]. *)
Inductive Op : Type :=
| OpLock
| OpUnlock
| OpGet (idx : Z)
| OpAppend (conn : LoadGeneratingConnection)
| OpLen.

Definition exec (op : Op) (collection : LoadGeneratingConnectionCollection)
  : option LoadGeneratingConnectionCollection :=
  match op with
  | OpLock => option_map (with_Lock collection) (Lock_ (Lock collection))
  | OpUnlock => option_map (with_Lock collection) (Unlock (Lock collection))
  | OpGet idx =>
      match Get collection idx with
      | (_, Panic) => None
      | (collection', _) => Some collection'
      end
  | OpAppend conn =>
      match Append collection conn with
      | (_, Panic) => None
      | (collection', _) => Some collection'
      end
  | OpLen => let _ := Len collection in Some collection
  end.

Fixpoint run (ops : list Op) (collection : LoadGeneratingConnectionCollection)
  : LoadGeneratingConnectionCollection :=
  match ops with
  | [] => collection
  | op :: rest =>
      match exec op collection with
      | Some collection' => run rest collection'
      | None => collection
      end
  end.

(** The lengths of the pool after each operation of a run. *)
Fixpoint lengths (ops : list Op) (collection : LoadGeneratingConnectionCollection)
  : list Z :=
  Len collection ::
  match ops with
  | [] => []
  | op :: rest =>
      match exec op collection with
      | Some collection' => lengths rest collection'
      | None => []
      end
  end.

End Collection.

Arguments Lock {LoadGeneratingConnection} _.
Arguments LGCs {LoadGeneratingConnection} _.
Arguments with_Lock {LoadGeneratingConnection} _ _.
Arguments Get {LoadGeneratingConnection} _ _.
Arguments Append {LoadGeneratingConnection} _ _.
Arguments Len {LoadGeneratingConnection} _.
Arguments exec {LoadGeneratingConnection} _ _.
Arguments run {LoadGeneratingConnection} _ _.
Arguments lengths {LoadGeneratingConnection} _ _.
Arguments OpLock {LoadGeneratingConnection}.
Arguments OpUnlock {LoadGeneratingConnection}.
Arguments OpGet {LoadGeneratingConnection} _.
Arguments OpAppend {LoadGeneratingConnection} _.
Arguments OpLen {LoadGeneratingConnection}.

End lgc.

(** ** Package utilities *)

Module utilities.

(** Go's [int] is a 64-bit two's complement integer: the result of an
    arithmetic operation is reduced into [-2^63, 2^63). *)
Definition wrap_int (z : Z) : Z := (z + 2 ^ 63) mod 2 ^ 64 - 2 ^ 63.

Definition max_int : Z := 2 ^ 63 - 1.

(** The body of the loop of [Iota]: [n] iterations starting at [counter],
    each storing [counter] at position [counter - low]. *)
Fixpoint Iota_loop (counter : Z) (n : nat) : list Z :=
  match n with
  | O => []
  | S n' => counter :: Iota_loop (counter + 1) n'
  end.

(** [Iota low high].  [make] panics on a negative length; otherwise the
    loop runs for [counter = low, ..., high - 1]. *)
Definition Iota (low high : Z) : option (list Z) :=
  let n := wrap_int (high - low) in
  if n <? 0 then None else Some (Iota_loop low (Z.to_nat n)).

Definition Conditional (condition : bool) (t f : string) : string :=
  if condition then t else f.

Definition ToMBps (bytes : float) : float := (bytes / 1048576)%float.

Definition ToMbps (bytes : float) : float := (ToMBps bytes * 8)%float.

Definition Max (x y : Z) : Z := if x >? y then x else y.

Section Percentile.

(** The element type [S] of the generic function with its [<]. *)
Variable S : Type.
Variable less : S -> S -> bool.

(** [sort.Slice] of the Go library: it rearranges the slice in place
    according to the comparison it is given. *)
Variable sort_Slice : (S -> S -> bool) -> list S -> list S.

(** [percentileIdx := elementsCount * (percentile / 100)]: the division
    of two [int]s truncates towards zero, the product wraps. *)
Definition percentileIdx (elementsCount percentile : Z) : Z :=
  wrap_int (elementsCount * Z.quot percentile 100).

(** [CalculatePercentile] returns the slice as the sort left it (the
    caller's slice shares the array) and the element read, or [None] when
    the indexing panics. *)
Definition CalculatePercentile (elements : list S) (percentile : Z)
  : list S * option S :=
  let elements := sort_Slice less elements in
  let elementsCount := len elements in
  (elements, index elements (percentileIdx elementsCount percentile)).

End Percentile.

Arguments percentileIdx _ _ : assert.
Arguments CalculatePercentile {S} less sort_Slice elements percentile.

(** An instance of the sort for the counterexamples and witnesses:
    insertion sort. *)
Fixpoint insert {S : Type} (less : S -> S -> bool) (x : S) (l : list S) : list S :=
  match l with
  | [] => [x]
  | y :: l' => if less x y then x :: y :: l' else y :: insert less x l'
  end.

Fixpoint insertion_sort {S : Type} (less : S -> S -> bool) (l : list S) : list S :=
  match l with
  | [] => []
  | x :: l' => insert less x (insertion_sort less l')
  end.


(** *** More helpers of the package *)


(** [Fmap]: the result starts empty and every element's image is
    appended, in the order of the range loop. *)
Definition Fmap {S F : Type} (elements : list S) (mapper : S -> F) : list F :=
  fold_left (fun result s => result ++ [mapper s]) elements [].

(** [Optional[S]]: a value and the flag that says it is there. *)
Record Optional (S : Type) : Type := { value : S; some : bool }.

Arguments value {S} _.
Arguments some {S} _.

Definition Some_ {S : Type} (value : S) : Optional S :=
  {| value := value; some := true |}.

(** [None] leaves [value] at the zero value of [S]. *)
Definition None_ {S : Type} (zero : S) : Optional S :=
  {| value := zero; some := false |}.

Definition IsNone {S : Type} (optional : Optional S) : bool :=
  negb (some optional).

Definition IsSome {S : Type} (optional : Optional S) : bool :=
  some optional.

Definition GetSome {S : Type} (optional : Optional S) : outcome S :=
  if negb (some optional) then Panic else Ok (value optional).

(** [%v] of a [bool]. *)
Definition Sprint_bool (b : bool) : string :=
  if b then "true" else "false".

(** [String]: the format is given [optional.some], the flag. *)
Definition String_ {S : Type} (optional : Optional S) : string :=
  if IsSome optional then "Some: " ++ Sprint_bool (some optional)
  else "None".

(** Go's [uint64]: arithmetic is modulo [2^64]. *)
Definition wrap_uint64 (z : Z) : Z := z mod 2 ^ 64.

(** [GenerateUniqueId]: the closure owns [nextConnectionId], which
    starts at 0; a call adds 1 to it atomically and returns the new
    value.  The state is threaded through. *)
Definition nextConnectionId_initial : Z := 0.

Definition GenerateUniqueId (nextConnectionId : Z) : Z * Z :=
  let new := wrap_uint64 (nextConnectionId + 1) in (new, new).

(** The identifiers returned by [n] successive calls. *)
Fixpoint GenerateUniqueIds (n : nat) (nextConnectionId : Z) : list Z :=
  match n with
  | O => []
  | Datatypes.S n' =>
      let (id, next) := GenerateUniqueId nextConnectionId in
      id :: GenerateUniqueIds n' next
  end.

(** [strings.SplitN(s, sep, 2)] of the Go library for a separator of one
    byte: the text before the first separator and the text after it, or
    the text alone when it has no separator. *)
Fixpoint cut (sep : ascii) (s : string) : option (string * string) :=
  match s with
  | EmptyString => None
  | String c s' =>
      if Ascii.eqb c sep then Some (EmptyString, s')
      else match cut sep s' with
           | Some (before, after) => Some (String c before, after)
           | None => None
           end
  end.

Definition SplitN_2 (s : string) (sep : ascii) : list string :=
  match cut sep s with
  | Some (before, after) => [before; after]
  | None => [s]
  end.

(** [FilenameAppend]: [pieces[0]] always exists; [pieces[1:]] is joined
    with "." again. *)
Definition FilenameAppend (filename appendage : string) : string :=
  let pieces := SplitN_2 filename "."%char in
  let result := (hd EmptyString pieces ++ appendage)%string in
  if 1 <? len pieces then
    (result ++ "." ++ String.concat "." (tl pieces))%string
  else result.

End utilities.

(** ** Conversions to [float64] and package time *)

(** [float64(z)] for an integer [z] with [|z| < 2^63]: the nearest
    binary64 value. *)
Definition float64_of_Z (z : Z) : float :=
  if z <? 0 then (- PrimFloat.of_uint63 (Uint63.of_Z (- z)))%float
  else PrimFloat.of_uint63 (Uint63.of_Z z).

Module time.

(** A [time.Duration] is an [int64] count of nanoseconds. *)
Definition Duration : Type := Z.

Definition Second : Duration := 1000000000.

(** [Duration.Seconds] of the Go library:
    [sec := d / Second; nsec := d % Second;
     return float64(sec) + float64(nsec)/1e9]. *)
Definition Seconds (d : Duration) : float :=
  let sec := Z.quot d Second in
  let nsec := Z.rem d Second in
  (float64_of_Z sec + float64_of_Z nsec / 1e9)%float.

End time.

(** ** Package qualityattenuation *)

Module qualityattenuation.

(** Modelled from the spec: [SimpleQualityAttenuation] and its methods
    ([NewSimpleQualityAttenuation], [AddSample], the accessors); the
    repository's file that declares them is not among the sources, only
    its unit tests are.  The field names are the ones the tests read.  The
    quantile sketch is represented by the samples it was given, latest
    first.  A sample is a loss when it is strictly greater than the
    threshold: the specification says so where it fixes the numerics ("a
    single sample at exactly 15 s is still counted as live") and
    [TestManySamples] counts 9999 losses on a ramp that contains 15.0. *)
Record SimpleQualityAttenuation : Type := {
  empiricalDistribution : list float;
  offsetSum : float;
  offsetSumOfSquares : float;
  numberOfSamples : Z;
  numberOfLosses : Z;
  minimumLatency : float;
  maximumLatency : float
}.

(** The two hard-coded constants: the offset subtracted from every live
    sample and the latency from which on a sample is a loss. *)
Definition offset : float := 0.1%float.

Definition latencyEqLossThreshold : float := 15%float.

Definition NewSimpleQualityAttenuation : SimpleQualityAttenuation :=
  {| empiricalDistribution := [];
     offsetSum := 0%float;
     offsetSumOfSquares := 0%float;
     numberOfSamples := 0;
     numberOfLosses := 0;
     minimumLatency := infinity;
     maximumLatency := neg_infinity |}.

Definition fmin (a b : float) : float := if (b <? a)%float then b else a.

Definition fmax (a b : float) : float := if (a <? b)%float then b else a.

(** [AddSample]: a negative sample is rejected; a loss is counted in
    [numberOfSamples] and [numberOfLosses] and enters the extremes through
    the threshold bound only; a live sample updates everything. *)
Definition AddSample (qa : SimpleQualityAttenuation) (sample : float)
  : SimpleQualityAttenuation * outcome unit :=
  if (sample <? 0)%float then (qa, Err "sample is negative")
  else if (latencyEqLossThreshold <? sample)%float then
    ({| empiricalDistribution := empiricalDistribution qa;
        offsetSum := offsetSum qa;
        offsetSumOfSquares := offsetSumOfSquares qa;
        numberOfSamples := numberOfSamples qa + 1;
        numberOfLosses := numberOfLosses qa + 1;
        minimumLatency := fmin (minimumLatency qa) latencyEqLossThreshold;
        maximumLatency := fmax (maximumLatency qa) latencyEqLossThreshold |},
     Ok tt)
  else
    ({| empiricalDistribution := sample :: empiricalDistribution qa;
        offsetSum := (offsetSum qa + (sample - offset))%float;
        offsetSumOfSquares :=
          (offsetSumOfSquares qa + (sample - offset) * (sample - offset))%float;
        numberOfSamples := numberOfSamples qa + 1;
        numberOfLosses := numberOfLosses qa;
        minimumLatency := fmin (minimumLatency qa) sample;
        maximumLatency := fmax (maximumLatency qa) sample |},
     Ok tt).

Definition GetNumberOfSamples (qa : SimpleQualityAttenuation) : Z :=
  numberOfSamples qa.

Definition GetNumberOfLosses (qa : SimpleQualityAttenuation) : Z :=
  numberOfLosses qa.

Definition GetMinimum (qa : SimpleQualityAttenuation) : float :=
  minimumLatency qa.

Definition GetMaximum (qa : SimpleQualityAttenuation) : float :=
  maximumLatency qa.

Definition n_live (qa : SimpleQualityAttenuation) : float :=
  float64_of_Z (numberOfSamples qa - numberOfLosses qa).

Definition GetAverage (qa : SimpleQualityAttenuation) : float :=
  (offsetSum qa / n_live qa + offset)%float.

Definition GetVariance (qa : SimpleQualityAttenuation) : float :=
  ((offsetSumOfSquares qa - offsetSum qa * offsetSum qa / n_live qa)
   / (n_live qa - 1))%float.

Definition GetStandardDeviation (qa : SimpleQualityAttenuation) : float :=
  PrimFloat.sqrt (GetVariance qa).

Definition GetLossPercentage (qa : SimpleQualityAttenuation) : float :=
  (100 * float64_of_Z (numberOfLosses qa) / float64_of_Z (numberOfSamples qa))%float.

Definition GetRPM (qa : SimpleQualityAttenuation) : float :=
  (60 / GetAverage qa)%float.

(** The state after a sequence of [AddSample] calls (their errors are
    dropped, as the tests and the orchestrator drop them). *)
Definition AddSamples (qa : SimpleQualityAttenuation) (samples : list float)
  : SimpleQualityAttenuation :=
  fold_left (fun qa sample => fst (AddSample qa sample)) samples qa.

(** [assert.InEpsilon(expected, actual, epsilon)] of the test library:
    the relative error is at most [epsilon]. *)
Definition InEpsilon (expected actual epsilon : float) : bool :=
  (PrimFloat.abs (expected - actual) / PrimFloat.abs expected <=? epsilon)%float.

(** The samples of [TestManySamples]: [float64(i) / 10000.0] for
    [i = 1, ..., 159999]. *)
Definition ramp : list float :=
  map (fun i => (float64_of_Z i / 10000)%float)
      (utilities.Iota_loop 1 (Z.to_nat 159999)).

End qualityattenuation.

(** ** The command line client: [main] *)

Module networkQuality.

(** *** Data of the collaborating packages *)

(** [probe.ProbeType]. *)
Inductive ProbeType : Type := SelfUp | SelfDown | Foreign.

(** [probe.ProbeDataPoint], the fields [main] reads.  [RoundTripCount]
    is an unsigned count. *)
Record ProbeDataPoint : Type := {
  Type_ : ProbeType;
  Duration : time.Duration;
  RoundTripCount : Z
}.

(** [rpm.ThroughputDataPoint], the fields [main] reads. *)
Record ThroughputDataPoint : Type := {
  Throughput : float;
  Connections : Z
}.

(** Modelled from the spec: [ms.InfiniteMathematicalSeries], whose file
    is not among the sources: an ordered sequence with append at the end
    and a length. *)
Definition MathematicalSeries : Type := list float.

Definition NewInfiniteMathematicalSeries : MathematicalSeries := [].

Definition AddElement (series : MathematicalSeries) (element : float)
  : MathematicalSeries := series ++ [element].

(** The statistics of a series that [main] asks for; their code is not
    among the sources, so they are taken as an interface. *)
Class SeriesStatistics : Type := {
  DoubleSidedTrim : MathematicalSeries -> Z -> MathematicalSeries;
  CalculateAverage : MathematicalSeries -> float;
  Percentile : MathematicalSeries -> Z -> float
}.

(** The stabilizers ([stabilizer.ThroughputStabilizer] and
    [stabilizer.ProbeStabilizer]): a state, fed with measurements and
    asked whether it is stable. *)
Class Stabilizer (Measurement State : Type) : Type := {
  NewStabilizer : State;
  AddMeasurement : State -> Measurement -> State;
  IsStable : State -> bool
}.

(** The quality attenuation summary as [main] uses it. *)
Class QualityAttenuation (State : Type) : Type := {
  NewSimpleQualityAttenuation : State;
  AddSample : State -> float -> State
}.

(** The command line flags that [main] reads after start-up. *)
Record Flags : Type := {
  debugCliFlag : bool;
  calculateExtendedStats : bool;
  printQualityAttenuation : bool;
  prometheusStatsFilename : string
}.

(** What the [select] of the main loop receives: a measurement on one of
    the three channels, or the firing of the timeout channel. *)
Inductive Event : Type :=
| DownloadThroughputMeasurement (measurement : ThroughputDataPoint)
| UploadThroughputMeasurement (measurement : ThroughputDataPoint)
| ProbeMeasurement (measurement : ProbeDataPoint)
| TimeoutFired.

(** The cancellation scopes, all children of [operatingCtx]. *)
Inductive Ctx : Type :=
| operatingCtx
| uploadLoadGeneratorOperatorCtx
| downloadLoadGeneratorOperatorCtx
| proberOperatorCtx
| networkActivityCtx.

(** How the main loop was left. *)
Inductive Exit : Type := Stabilized | TimedOut.

Section Orchestrator.

Context {ThroughputStabilizer ProbeStabilizer SimpleQualityAttenuation : Type}.
Context {throughputStabilizer : Stabilizer ThroughputDataPoint ThroughputStabilizer}.
Context {probeStabilizerOps : Stabilizer ProbeDataPoint ProbeStabilizer}.
Context {qualityAttenuation : QualityAttenuation SimpleQualityAttenuation}.
Context {seriesStatistics : SeriesStatistics}.

(** Extended statistics: whether the platform has them, the aggregate,
    and the incorporation of one connection's statistics (which may
    report an error). *)
Variable LoadGeneratingConnection : Type.
Variable AggregateExtendedStats : Type.
Variable ExtendedStatsAvailable : bool.
Variable NewAggregateExtendedStats : AggregateExtendedStats.
Variable IncorporateConnectionStats :
  AggregateExtendedStats -> LoadGeneratingConnection ->
  AggregateExtendedStats * option string.

(** The local variables of [main] that the loop updates. *)
Record TestState : Type := {
  responsivenessIsStable : bool;
  downloadThroughputIsStable : bool;
  uploadThroughputIsStable : bool;
  downloadThroughputStabilizer : ThroughputStabilizer;
  uploadThroughputStabilizer : ThroughputStabilizer;
  probeStabilizer : ProbeStabilizer;
  selfRtts : MathematicalSeries;
  selfRttsQualityAttenuation : SimpleQualityAttenuation;
  foreignRtts : MathematicalSeries;
  lastUploadThroughputRate : float;
  lastUploadThroughputOpenConnectionCount : Z;
  lastDownloadThroughputRate : float;
  lastDownloadThroughputOpenConnectionCount : Z
}.

Definition initialState : TestState :=
  {| responsivenessIsStable := false;
     downloadThroughputIsStable := false;
     uploadThroughputIsStable := false;
     downloadThroughputStabilizer := NewStabilizer;
     uploadThroughputStabilizer := NewStabilizer;
     probeStabilizer := NewStabilizer;
     selfRtts := NewInfiniteMathematicalSeries;
     selfRttsQualityAttenuation := NewSimpleQualityAttenuation;
     foreignRtts := NewInfiniteMathematicalSeries;
     lastUploadThroughputRate := 0%float;
     lastUploadThroughputOpenConnectionCount := 0;
     lastDownloadThroughputRate := 0%float;
     lastDownloadThroughputOpenConnectionCount := 0 |}.

(** The [select] case of the download throughput channel. *)
Definition onDownloadThroughput (st : TestState)
  (downloadThroughputMeasurement : ThroughputDataPoint) : TestState :=
  let stabilizer :=
    AddMeasurement (downloadThroughputStabilizer st) downloadThroughputMeasurement in
  {| responsivenessIsStable := responsivenessIsStable st;
     downloadThroughputIsStable := IsStable stabilizer;
     uploadThroughputIsStable := uploadThroughputIsStable st;
     downloadThroughputStabilizer := stabilizer;
     uploadThroughputStabilizer := uploadThroughputStabilizer st;
     probeStabilizer := probeStabilizer st;
     selfRtts := selfRtts st;
     selfRttsQualityAttenuation := selfRttsQualityAttenuation st;
     foreignRtts := foreignRtts st;
     lastUploadThroughputRate := lastUploadThroughputRate st;
     lastUploadThroughputOpenConnectionCount :=
       lastUploadThroughputOpenConnectionCount st;
     lastDownloadThroughputRate := Throughput downloadThroughputMeasurement;
     lastDownloadThroughputOpenConnectionCount :=
       Connections downloadThroughputMeasurement |}.

(** The [select] case of the upload throughput channel. *)
Definition onUploadThroughput (st : TestState)
  (uploadThroughputMeasurement : ThroughputDataPoint) : TestState :=
  let stabilizer :=
    AddMeasurement (uploadThroughputStabilizer st) uploadThroughputMeasurement in
  {| responsivenessIsStable := responsivenessIsStable st;
     downloadThroughputIsStable := downloadThroughputIsStable st;
     uploadThroughputIsStable := IsStable stabilizer;
     downloadThroughputStabilizer := downloadThroughputStabilizer st;
     uploadThroughputStabilizer := stabilizer;
     probeStabilizer := probeStabilizer st;
     selfRtts := selfRtts st;
     selfRttsQualityAttenuation := selfRttsQualityAttenuation st;
     foreignRtts := foreignRtts st;
     lastUploadThroughputRate := Throughput uploadThroughputMeasurement;
     lastUploadThroughputOpenConnectionCount :=
       Connections uploadThroughputMeasurement;
     lastDownloadThroughputRate := lastDownloadThroughputRate st;
     lastDownloadThroughputOpenConnectionCount :=
       lastDownloadThroughputOpenConnectionCount st |}.

(** A foreign measurement may bundle several round trips: one element
    per index of [Iota(0, int(RoundTripCount))] is added, each the
    duration divided by [float64(RoundTripCount)].  [None] when [Iota]
    panics. *)
Definition addForeignRtts (series : MathematicalSeries)
  (probeMeasurement : ProbeDataPoint) : option MathematicalSeries :=
  match utilities.Iota 0 (utilities.wrap_int (RoundTripCount probeMeasurement)) with
  | None => None
  | Some indices =>
      Some (fold_left
              (fun series _ =>
                 AddElement series
                   (time.Seconds (Duration probeMeasurement)
                    / float64_of_Z (RoundTripCount probeMeasurement))%float)
              indices series)
  end.

(** The [select] case of the probe channel; [None] when it panics. *)
Definition onProbe (flags : Flags) (st : TestState)
  (probeMeasurement : ProbeDataPoint) : option TestState :=
  let stabilizer := AddMeasurement (probeStabilizer st) probeMeasurement in
  let with_series selfRtts' qa' foreignRtts' :=
    {| responsivenessIsStable := IsStable stabilizer;
       downloadThroughputIsStable := downloadThroughputIsStable st;
       uploadThroughputIsStable := uploadThroughputIsStable st;
       downloadThroughputStabilizer := downloadThroughputStabilizer st;
       uploadThroughputStabilizer := uploadThroughputStabilizer st;
       probeStabilizer := stabilizer;
       selfRtts := selfRtts';
       selfRttsQualityAttenuation := qa';
       foreignRtts := foreignRtts';
       lastUploadThroughputRate := lastUploadThroughputRate st;
       lastUploadThroughputOpenConnectionCount :=
         lastUploadThroughputOpenConnectionCount st;
       lastDownloadThroughputRate := lastDownloadThroughputRate st;
       lastDownloadThroughputOpenConnectionCount :=
         lastDownloadThroughputOpenConnectionCount st |} in
  match Type_ probeMeasurement with
  | Foreign =>
      match addForeignRtts (foreignRtts st) probeMeasurement with
      | Some foreignRtts' =>
          Some (with_series (selfRtts st) (selfRttsQualityAttenuation st) foreignRtts')
      | None => None
      end
  | SelfDown | SelfUp =>
      let seconds := time.Seconds (Duration probeMeasurement) in
      Some (with_series
              (AddElement (selfRtts st) seconds)
              (if printQualityAttenuation flags
               then AddSample (selfRttsQualityAttenuation st) seconds
               else selfRttsQualityAttenuation st)
              (foreignRtts st))
  end.

(** The condition of the [for] loop is the negation of [allStable]. *)
Definition allStable (st : TestState) : bool :=
  responsivenessIsStable st && downloadThroughputIsStable st
  && uploadThroughputIsStable st.

(** The state of the loop after a sequence of events: still blocked in
    the [select], left (by its condition or by [break timeout]), or
    panicked. *)
Inductive LoopRun : Type :=
| Waiting (st : TestState)
| Exited (exit : Exit) (st : TestState)
| LoopPanicked.

Fixpoint loop (flags : Flags) (st : TestState) (events : list Event) : LoopRun :=
  if allStable st then Exited Stabilized st
  else
    match events with
    | [] => Waiting st
    | DownloadThroughputMeasurement measurement :: events' =>
        loop flags (onDownloadThroughput st measurement) events'
    | UploadThroughputMeasurement measurement :: events' =>
        loop flags (onUploadThroughput st measurement) events'
    | ProbeMeasurement measurement :: events' =>
        match onProbe flags st measurement with
        | Some st' => loop flags st' events'
        | None => LoopPanicked
        end
    | TimeoutFired :: _ => Exited TimedOut st
    end.

(** *** Effects of the code after the loop *)

(** What the code after the loop does to the outside, in order: it
    cancels scopes and reads the statistics of connections. *)
Inductive Action : Type :=
| Cancel (ctx : Ctx)
| ReadConnectionStats (connection : LoadGeneratingConnection).

(** The lines of the final report on the standard output, with the
    values they print. *)
Inductive Line : Type :=
| StoppingGenerators (stability : string)
| ProbeCounts (selfRttsTotalCount foreignRttsTotalCount
               selfRttsTrimmedCount foreignRttsTrimmedCount : Z)
              (selfProbeRoundTripTimeP90 foreignProbeRoundTripTimeP90
               selfProbeRoundTripTimeMean foreignProbeRoundTripTimeMean : float)
| QualityAttenuationStatistics (qa : SimpleQualityAttenuation)
| ResultsAreEstimates
| RpmP90 (p90Rpm : float)
| RpmTrimmedMean (meanRpm : float)
| Download (mbps mBps : float) (connections : Z)
| Upload (mbps mBps : float) (connections : Z)
| ExtendedStats (extendedStats : AggregateExtendedStats).

(** The metrics of the Prometheus file; a rate or an RPM is written as
    [int64] of the value carried here. *)
Inductive Metric : Type :=
| networkquality_test_stable (testStable : Z)
| networkquality_rpm_value (p90Rpm : float)
| networkquality_trimmed_rpm_value (meanRpm : float)
| networkquality_download_bits_per_second (rate : float)
| networkquality_download_connections (connections : Z)
| networkquality_upload_bits_per_second (rate : float)
| networkquality_upload_connections (connections : Z).

Record World : Type := {
  actions : list Action;
  stdout : list Line;
  stderr : list string;
  files : list (string * list Metric)
}.

Definition emptyWorld : World :=
  {| actions := []; stdout := []; stderr := []; files := [] |}.

(** A computation that acts on the world and returns, or panics
    ([None]). *)
Definition M (A : Type) : Type := World -> World * option A.

Definition ret {A : Type} (a : A) : M A := fun w => (w, Some a).

Definition bind {A B : Type} (m : M A) (k : A -> M B) : M B :=
  fun w =>
    match m w with
    | (w', Some a) => k a w'
    | (w', None) => (w', None)
    end.

Definition panic {A : Type} : M A := fun w => (w, None).

Definition act (a : Action) : M unit :=
  fun w =>
    ({| actions := actions w ++ [a]; stdout := stdout w;
        stderr := stderr w; files := files w |}, Some tt).

Definition Printf (l : Line) : M unit :=
  fun w =>
    ({| actions := actions w; stdout := stdout w ++ [l];
        stderr := stderr w; files := files w |}, Some tt).

Definition Fprintf_stderr (s : string) : M unit :=
  fun w =>
    ({| actions := actions w; stdout := stdout w;
        stderr := stderr w ++ [s]; files := files w |}, Some tt).

Definition WriteFile (name : string) (buffer : list Metric) : M unit :=
  fun w =>
    ({| actions := actions w; stdout := stdout w;
        stderr := stderr w; files := files w ++ [(name, buffer)] |}, Some tt).

Definition when (condition : bool) (m : M unit) : M unit :=
  if condition then m else ret tt.

Local Notation "x <- m ;; k" := (bind m (fun x => k))
  (at level 61, m at next level, right associativity).
Local Notation "m ;; k" := (bind m (fun _ => k))
  (at level 61, right associativity).

(** *** Start-up *)

(** Extended statistics that the platform does not have are switched
    off at start-up. *)
Definition normalizeFlags (flags : Flags) : Flags :=
  if calculateExtendedStats flags && negb ExtendedStatsAvailable then
    {| debugCliFlag := debugCliFlag flags;
       calculateExtendedStats := false;
       printQualityAttenuation := printQualityAttenuation flags;
       prometheusStatsFilename := prometheusStatsFilename flags |}
  else flags.

(** *** Teardown *)

(** The loop over the download connections, [i = 0, ..., Len() - 1], run
    with the mutex of the collection held.  [Get] leaves the collection
    as it is, so the bound of the loop is the length at its entry.  When
    [Get] returns an error its pointer is nil, and dereferencing it
    panics. *)
Fixpoint aggregateLoop (indices : list Z)
  (collection : lgc.LoadGeneratingConnectionCollection LoadGeneratingConnection)
  (extendedStats : AggregateExtendedStats) : M AggregateExtendedStats :=
  match indices with
  | [] => ret extendedStats
  | i :: indices' =>
      match lgc.Get collection i with
      | (collection', Ok currentLgc) =>
          act (ReadConnectionStats currentLgc) ;;
          let (extendedStats', err) :=
            IncorporateConnectionStats extendedStats currentLgc in
          match err with
          | Some e =>
              Fprintf_stderr
                ("Warning: Could not add extended stats for the connection: " ++ e)
          | None => ret tt
          end ;;
          aggregateLoop indices' collection' extendedStats'
      | (_, _) => panic
      end
  end.

(** [downloadLGCs] is the pool at the moment [Lock.Lock()] returns; the
    deferred [Unlock] releases the mutex when the loop is done. *)
Definition aggregateExtendedStats (downloadLGCs : list LoadGeneratingConnection)
  : M AggregateExtendedStats :=
  let collection :=
    {| lgc.Lock := {| lgc.locked := true |}; lgc.LGCs := downloadLGCs |} in
  aggregateLoop
    (utilities.Iota_loop 0 (Z.to_nat (lgc.Len collection)))
    collection NewAggregateExtendedStats.

Definition teardown (flags : Flags)
  (downloadLGCs : list LoadGeneratingConnection) : M AggregateExtendedStats :=
  (* First, stop the load generator and the probe operators. *)
  act (Cancel proberOperatorCtx) ;;
  act (Cancel downloadLoadGeneratorOperatorCtx) ;;
  act (Cancel uploadLoadGeneratorOperatorCtx) ;;
  (* Second, calculate the extended stats (if the user requested). *)
  extendedStats <-
    (if calculateExtendedStats flags then
       if ExtendedStatsAvailable then aggregateExtendedStats downloadLGCs
       else panic
     else ret NewAggregateExtendedStats) ;;
  (* Third, stop the network connections. *)
  act (Cancel networkActivityCtx) ;;
  (* Finally, stop the world. *)
  act (Cancel operatingCtx) ;;
  ret extendedStats.

(** *** The final report *)

Definition p90Rpm (st : TestState) : float :=
  let selfProbeRoundTripTimeP90 := Percentile (selfRtts st) 90 in
  let foreignProbeRoundTripTimeP90 := Percentile (foreignRtts st) 90 in
  (60 / ((selfProbeRoundTripTimeP90 + foreignProbeRoundTripTimeP90) / 2))%float.

Definition meanRpm (st : TestState) : float :=
  let selfRttsTrimmed := DoubleSidedTrim (selfRtts st) 10 in
  let foreignRttsTrimmed := DoubleSidedTrim (foreignRtts st) 10 in
  let selfProbeRoundTripTimeMean := CalculateAverage selfRttsTrimmed in
  let foreignProbeRoundTripTimeMean := CalculateAverage foreignRttsTrimmed in
  (60 / ((selfProbeRoundTripTimeMean + foreignProbeRoundTripTimeMean) / 2))%float.

Definition testRanToStability (st : TestState) : bool :=
  downloadThroughputIsStable st && uploadThroughputIsStable st
  && responsivenessIsStable st.

Definition prometheusBuffer (st : TestState) : list Metric :=
  [ networkquality_test_stable (if testRanToStability st then 1 else 0);
    networkquality_rpm_value (p90Rpm st);
    networkquality_trimmed_rpm_value (meanRpm st);
    networkquality_download_bits_per_second (lastDownloadThroughputRate st);
    networkquality_download_connections
      (lastDownloadThroughputOpenConnectionCount st);
    networkquality_upload_bits_per_second (lastUploadThroughputRate st);
    networkquality_upload_connections
      (lastUploadThroughputOpenConnectionCount st) ].

Definition report (flags : Flags) (st : TestState)
  (extendedStats : AggregateExtendedStats) : M unit :=
  let selfRttsTrimmed := DoubleSidedTrim (selfRtts st) 10 in
  let foreignRttsTrimmed := DoubleSidedTrim (foreignRtts st) 10 in
  when (debugCliFlag flags)
    (Printf (ProbeCounts
               (len (selfRtts st)) (len (foreignRtts st))
               (len selfRttsTrimmed) (len foreignRttsTrimmed)
               (Percentile (selfRtts st) 90) (Percentile (foreignRtts st) 90)
               (CalculateAverage selfRttsTrimmed)
               (CalculateAverage foreignRttsTrimmed))) ;;
  when (printQualityAttenuation flags)
    (Printf (QualityAttenuationStatistics (selfRttsQualityAttenuation st))) ;;
  when (negb (testRanToStability st)) (Printf ResultsAreEstimates) ;;
  Printf (RpmP90 (p90Rpm st)) ;;
  Printf (RpmTrimmedMean (meanRpm st)) ;;
  Printf (Download (utilities.ToMbps (lastDownloadThroughputRate st))
                   (utilities.ToMBps (lastDownloadThroughputRate st))
                   (lastDownloadThroughputOpenConnectionCount st)) ;;
  Printf (Upload (utilities.ToMbps (lastUploadThroughputRate st))
                 (utilities.ToMBps (lastUploadThroughputRate st))
                 (lastUploadThroughputOpenConnectionCount st)) ;;
  when (calculateExtendedStats flags) (Printf (ExtendedStats extendedStats)) ;;
  when (0 <? Z.of_nat (String.length (prometheusStatsFilename flags)))
    (WriteFile (prometheusStatsFilename flags) (prometheusBuffer st)).

(** The code of [main] after the loop. *)
Definition afterLoop (flags : Flags) (st : TestState)
  (downloadLGCs : list LoadGeneratingConnection) : M unit :=
  when (debugCliFlag flags)
    (Printf (StoppingGenerators
               (utilities.Conditional (testRanToStability st) "success" "failure"))) ;;
  extendedStats <- teardown flags downloadLGCs ;;
  report flags st extendedStats.

(** *** [main] *)

(** A run of [main] on the events its [select] receives: it is still
    blocked in the [select], it returned, or it panicked. *)
Inductive MainRun : Type :=
| Blocked
| Returned (exit : Exit) (st : TestState) (w : World)
| Panicked (w : World).

Definition main (flags : Flags) (events : list Event)
  (downloadLGCs : list LoadGeneratingConnection) : MainRun :=
  let flags := normalizeFlags flags in
  match loop flags initialState events with
  | Waiting _ => Blocked
  | LoopPanicked => Panicked emptyWorld
  | Exited exit st =>
      match afterLoop flags st downloadLGCs emptyWorld with
      | (w, Some _) => Returned exit st w
      | (w, None) => Panicked w
      end
  end.

End Orchestrator.

Arguments TestState : clear implicits.
Arguments LoopRun : clear implicits.
Arguments Line : clear implicits.
Arguments World : clear implicits.
Arguments MainRun : clear implicits.
Arguments M : clear implicits.
Arguments Cancel {LoadGeneratingConnection} ctx.
Arguments ReadConnectionStats {LoadGeneratingConnection} connection.
Arguments StoppingGenerators {SimpleQualityAttenuation AggregateExtendedStats} stability.
Arguments ProbeCounts {SimpleQualityAttenuation AggregateExtendedStats} _ _ _ _ _ _ _ _.
Arguments QualityAttenuationStatistics {SimpleQualityAttenuation AggregateExtendedStats} qa.
Arguments ResultsAreEstimates {SimpleQualityAttenuation AggregateExtendedStats}.
Arguments RpmP90 {SimpleQualityAttenuation AggregateExtendedStats} p90Rpm.
Arguments RpmTrimmedMean {SimpleQualityAttenuation AggregateExtendedStats} meanRpm.
Arguments Download {SimpleQualityAttenuation AggregateExtendedStats} mbps mBps connections.
Arguments Upload {SimpleQualityAttenuation AggregateExtendedStats} mbps mBps connections.
Arguments ExtendedStats {SimpleQualityAttenuation AggregateExtendedStats} extendedStats.
Arguments actions {SimpleQualityAttenuation LoadGeneratingConnection AggregateExtendedStats} w.
Arguments stdout {SimpleQualityAttenuation LoadGeneratingConnection AggregateExtendedStats} w.
Arguments stderr {SimpleQualityAttenuation LoadGeneratingConnection AggregateExtendedStats} w.
Arguments files {SimpleQualityAttenuation LoadGeneratingConnection AggregateExtendedStats} w.
Arguments emptyWorld {SimpleQualityAttenuation LoadGeneratingConnection AggregateExtendedStats}.
Arguments Blocked {ThroughputStabilizer ProbeStabilizer SimpleQualityAttenuation
                   LoadGeneratingConnection AggregateExtendedStats}.
Arguments Returned {ThroughputStabilizer ProbeStabilizer SimpleQualityAttenuation
                    LoadGeneratingConnection AggregateExtendedStats} exit st w.
Arguments Panicked {ThroughputStabilizer ProbeStabilizer SimpleQualityAttenuation
                    LoadGeneratingConnection AggregateExtendedStats} w.

End networkQuality.

(** ** Reading the claims: definitions in the words of the specification *)

Module spec.

(** The mean of two latencies. *)
Definition mean (a b : float) : float := ((a + b) / 2)%float.

(** The sum of a series, left to right. *)
Definition sum (series : list float) : float :=
  fold_left PrimFloat.add series 0%float.

(** The sub-samples of a measurement of [k] round trips that took
    [d] seconds: [k] latencies of [d / k] each. *)
Definition subSamples (d : float) (k : Z) : list float :=
  repeat (d / float64_of_Z k)%float (Z.to_nat k).

(** The probe samples partitioned by kind: the latencies of the self
    probes, and the sub-samples of the foreign probes. *)
Definition selfLatencies (events : list networkQuality.Event) : list float :=
  flat_map
    (fun event =>
       match event with
       | networkQuality.ProbeMeasurement p =>
           match networkQuality.Type_ p with
           | networkQuality.Foreign => []
           | _ => [time.Seconds (networkQuality.Duration p)]
           end
       | _ => []
       end) events.

Definition foreignLatencies (events : list networkQuality.Event) : list float :=
  flat_map
    (fun event =>
       match event with
       | networkQuality.ProbeMeasurement p =>
           match networkQuality.Type_ p with
           | networkQuality.Foreign =>
               subSamples (time.Seconds (networkQuality.Duration p))
                          (networkQuality.RoundTripCount p)
           | _ => []
           end
       | _ => []
       end) events.

(** A measurement is well formed when its count of round trips is a
    count that fits an [int]. *)
Definition wellFormed (event : networkQuality.Event) : Prop :=
  match event with
  | networkQuality.ProbeMeasurement p =>
      0 <= networkQuality.RoundTripCount p <= utilities.max_int
  | _ => True
  end.

(** The order of the teardown: the three operators, then the statistics
    of the download connections when they are gathered, then the network
    activity, then the operating scope. *)
Definition teardownOrder {C : Type} (gather : bool) (downloadLGCs : list C)
  : list (networkQuality.Action C) :=
  [ networkQuality.Cancel networkQuality.proberOperatorCtx;
    networkQuality.Cancel networkQuality.downloadLoadGeneratorOperatorCtx;
    networkQuality.Cancel networkQuality.uploadLoadGeneratorOperatorCtx ]
  ++ (if gather then map networkQuality.ReadConnectionStats downloadLGCs else [])
  ++ [ networkQuality.Cancel networkQuality.networkActivityCtx;
       networkQuality.Cancel networkQuality.operatingCtx ].

(** The scopes cancelled by a sequence of actions, in order. *)
Definition cancellations {C : Type} (actions : list (networkQuality.Action C))
  : list networkQuality.Ctx :=
  flat_map (fun a => match a with
                     | networkQuality.Cancel ctx => [ctx]
                     | networkQuality.ReadConnectionStats _ => []
                     end) actions.




(** The statistics of the connections of a pool incorporated one after
    the other, with the warnings of those that failed. *)
Fixpoint incorporateAll {C A : Type} (incorporate : A -> C -> A * option string)
  (extendedStats : A) (connections : list C) : A * list string :=
  match connections with
  | [] => (extendedStats, [])
  | connection :: connections' =>
      let (extendedStats', err) := incorporate extendedStats connection in
      let (result, warnings) := incorporateAll incorporate extendedStats' connections' in
      (result,
       match err with
       | Some e =>
           ["Warning: Could not add extended stats for the connection: " ++ e]%string
       | None => []
       end ++ warnings)
  end.

End spec.

(** ** Scenarios: concrete collaborators and runs *)

Module scenario.

Import networkQuality.

(** Concrete collections: connections are numbered. *)
Definition pool (held : bool) (connections : list nat)
  : lgc.LoadGeneratingConnectionCollection nat :=
  {| lgc.Lock := {| lgc.locked := held |}; lgc.LGCs := connections |}.

(** A stabilizer that reports stable from its second measurement on. *)
#[global] Instance secondMeasurement (Measurement : Type) : Stabilizer Measurement nat :=
  {| NewStabilizer := 0%nat;
     AddMeasurement := fun count _ => Datatypes.S count;
     IsStable := fun count => (2 <=? count)%nat |}.

(** The quality attenuation summary of the repository. *)
#[global] Instance simpleQualityAttenuation
  : QualityAttenuation qualityattenuation.SimpleQualityAttenuation :=
  {| NewSimpleQualityAttenuation := qualityattenuation.NewSimpleQualityAttenuation;
     AddSample := fun qa sample => fst (qualityattenuation.AddSample qa sample) |}.

(** Modelled from the spec: the statistics of a series, whose code is
    not among the sources.  The double-sided trim sorts and drops the
    lowest and the highest [percent] of the elements; the average is the
    arithmetic mean; the percentile is read from the sorted series. *)
Definition sorted (series : MathematicalSeries) : MathematicalSeries :=
  utilities.insertion_sort PrimFloat.ltb series.

Definition trim (series : MathematicalSeries) (percent : Z) : MathematicalSeries :=
  let n := Z.to_nat (len series * percent / 100) in
  firstn (List.length series - 2 * n) (skipn n (sorted series)).

Definition average (series : MathematicalSeries) : float :=
  (spec.sum series / float64_of_Z (len series))%float.

Definition percentile (series : MathematicalSeries) (p : Z) : float :=
  nth (Z.to_nat (len series * p / 100)) (sorted series) 0%float.

#[global] Instance statistics : SeriesStatistics :=
  {| DoubleSidedTrim := trim; CalculateAverage := average; Percentile := percentile |}.

(** Extended statistics: the connections seen, none failing. *)
Definition incorporate (seen : list nat) (connection : nat)
  : list nat * option string := (seen ++ [connection], None).

Definition throughput (bytesPerSecond : float) : ThroughputDataPoint :=
  {| Throughput := bytesPerSecond; Connections := 4 |}.

Definition probeOf (type : ProbeType) (milliseconds roundTrips : Z) : ProbeDataPoint :=
  {| Type_ := type; Duration := milliseconds * 1000000; RoundTripCount := roundTrips |}.

Definition flags : Flags :=
  {| debugCliFlag := false;
     calculateExtendedStats := true;
     printQualityAttenuation := true;
     prometheusStatsFilename := "rpm.prom" |}.

(** A stable run: constant throughput, self probes of 100 ms and foreign
    probes of 300 ms over three round trips. *)
Definition stableRun : list Event :=
  [ DownloadThroughputMeasurement (throughput 100);
    UploadThroughputMeasurement (throughput 100);
    ProbeMeasurement (probeOf SelfDown 100 1);
    DownloadThroughputMeasurement (throughput 100);
    ProbeMeasurement (probeOf Foreign 300 3);
    UploadThroughputMeasurement (throughput 100);
    ProbeMeasurement (probeOf SelfUp 100 1);
    TimeoutFired ].

(** A run that the timeout ends before the upload was measured twice. *)
Definition timeoutRun : list Event :=
  [ DownloadThroughputMeasurement (throughput 1);
    ProbeMeasurement (probeOf SelfDown 100 1);
    DownloadThroughputMeasurement (throughput 2);
    ProbeMeasurement (probeOf Foreign 300 3);
    UploadThroughputMeasurement (throughput 3);
    TimeoutFired;
    UploadThroughputMeasurement (throughput 4) ].

(** The loop state and the probe case with these collaborators. *)
Definition initial : TestState nat nat qualityattenuation.SimpleQualityAttenuation :=
  initialState.

Definition probe (st : TestState nat nat qualityattenuation.SimpleQualityAttenuation)
  (measurement : ProbeDataPoint) := onProbe flags st measurement.

(** [main] with these collaborators, on a platform with extended
    statistics. *)
Definition run (events : list Event) (downloadLGCs : list nat)
  : MainRun nat nat qualityattenuation.SimpleQualityAttenuation nat (list nat) :=
  main nat (list nat) true [] incorporate flags events downloadLGCs.

(** The state and the world at the end of the two runs, over a pool of
    two download connections. *)
Definition stateOf
  (r : MainRun nat nat qualityattenuation.SimpleQualityAttenuation nat (list nat))
  : TestState nat nat qualityattenuation.SimpleQualityAttenuation :=
  match r with
  | Returned _ st _ => st
  | _ => initial
  end.

Definition worldOf
  (r : MainRun nat nat qualityattenuation.SimpleQualityAttenuation nat (list nat))
  : World qualityattenuation.SimpleQualityAttenuation nat (list nat) :=
  match r with
  | Returned _ _ w => w
  | Panicked w => w
  | Blocked => emptyWorld
  end.

Definition stableState := Eval vm_compute in stateOf (run stableRun [1; 2]%nat).

Definition stableWorld := Eval vm_compute in worldOf (run stableRun [1; 2]%nat).

Definition timeoutState := Eval vm_compute in stateOf (run timeoutRun [1; 2]%nat).

Definition timeoutWorld := Eval vm_compute in worldOf (run timeoutRun [1; 2]%nat).

End scenario.

(** * Properties *)

(** ** Slices *)

Lemma index_Some_iff {A : Type} (s : list A) (i : Z) :
  (exists x, index s i = Some x) <-> 0 <= i < len s.
Proof.
  unfold index, len. destruct (Z.ltb_spec i 0) as [Hneg | Hpos].
  - split; [intros [x Hx]; discriminate | lia].
  - split.
    + intros [x Hx].
      assert (Hlt : (Z.to_nat i < List.length s)%nat)
        by (apply nth_error_Some; rewrite Hx; discriminate).
      lia.
    + intros [_ Hlt].
      destruct (nth_error s (Z.to_nat i)) as [x |] eqn:E; [now exists x |].
      apply nth_error_None in E. lia.
Qed.

Lemma index_None_iff {A : Type} (s : list A) (i : Z) :
  index s i = None <-> i < 0 \/ len s <= i.
Proof.
  pose proof (index_Some_iff s i) as H.
  destruct (index s i) as [x |] eqn:E.
  - split; [discriminate |].
    assert (0 <= i < len s) by (apply H; eauto). lia.
  - split; [intros _ | reflexivity].
    destruct (Z_lt_ge_dec i 0); [now left | right].
    destruct (Z_lt_ge_dec i (len s)); [| lia].
    destruct H as [_ H]. destruct H as [x Hx]; [lia | discriminate].
Qed.

Lemma index_app_l {A : Type} (s t : list A) (i : Z) (x : A) :
  index s i = Some x -> index (s ++ t) i = Some x.
Proof.
  unfold index. destruct (i <? 0); [discriminate |].
  intros H. rewrite nth_error_app1; [assumption |].
  apply nth_error_Some. rewrite H. discriminate.
Qed.

Lemma len_app {A : Type} (s t : list A) : len (s ++ t) = len s + len t.
Proof. unfold len. rewrite length_app. lia. Qed.

Lemma app_two_in_the_middle {A : Type} (l1 l2 l3 t : list A) (x y : A) :
  l1 ++ l2 ++ l3 ++ x :: y :: t = (l1 ++ l2 ++ l3) ++ [x; y] ++ t.
Proof. now rewrite <- !app_assoc. Qed.

Lemma app_three_in_the_middle {A : Type} (l1 l2 t : list A) (x y z : A) :
  l1 ++ l2 ++ x :: y :: z :: t = (l1 ++ l2) ++ [x; y; z] ++ t.
Proof. now rewrite <- !app_assoc. Qed.

(** ** The connection collection *)

Section CollectionProperties.

Variable LoadGeneratingConnection : Type.

Let Collection : Type := lgc.LoadGeneratingConnectionCollection LoadGeneratingConnection.

Implicit Types (collection : Collection) (conn : LoadGeneratingConnection).

Lemma with_Lock_same collection : lgc.with_Lock collection (lgc.Lock collection) = collection.
Proof. now destruct collection. Qed.

Lemma unlocked_eq collection :
  lgc.locked (lgc.Lock collection) = false ->
  lgc.with_Lock collection {| lgc.locked := false |} = collection.
Proof.
  destruct collection as [[l] s]. simpl. intros ->. reflexivity.
Qed.

(** On a free mutex [Get] reports the error and leaves the collection
    (the mutex included) as it was. *)
Lemma Get_unlocked collection idx :
  lgc.locked (lgc.Lock collection) = false ->
  lgc.Get collection idx = (collection, Err "collection is unlocked").
Proof.
  intros H. unfold lgc.Get, lgc.TryLock, lgc.Unlock. rewrite H. simpl.
  now rewrite unlocked_eq.
Qed.

Lemma Append_unlocked collection conn :
  lgc.locked (lgc.Lock collection) = false ->
  lgc.Append collection conn = (collection, Err "collection is unlocked").
Proof.
  intros H. unfold lgc.Append, lgc.TryLock, lgc.Unlock. rewrite H. simpl.
  now rewrite unlocked_eq.
Qed.

(** On a held mutex the two methods do their work. *)
Lemma Get_locked collection idx :
  lgc.locked (lgc.Lock collection) = true ->
  lgc.Get collection idx =
    if idx >? lgc.Len collection then (collection, Err "index too large")
    else match index (lgc.LGCs collection) idx with
         | Some conn => (collection, Ok conn)
         | None => (collection, Panic)
         end.
Proof.
  intros H. unfold lgc.Get, lgc.TryLock, lgc.Len. now rewrite H.
Qed.

Lemma Append_locked collection conn :
  lgc.locked (lgc.Lock collection) = true ->
  lgc.Append collection conn =
    ({| lgc.Lock := lgc.Lock collection;
        lgc.LGCs := lgc.LGCs collection ++ [conn] |}, Ok tt).
Proof.
  intros H. unfold lgc.Append, lgc.TryLock. now rewrite H.
Qed.

(** [Get] never changes the elements. *)
Lemma Get_LGCs collection idx :
  lgc.LGCs (fst (lgc.Get collection idx)) = lgc.LGCs collection.
Proof.
  destruct (lgc.locked (lgc.Lock collection)) eqn:H.
  - rewrite Get_locked by assumption.
    destruct (idx >? lgc.Len collection); [reflexivity |].
    now destruct (index (lgc.LGCs collection) idx).
  - now rewrite Get_unlocked.
Qed.

(** Every operation keeps the elements and at most adds one at the end. *)
Lemma exec_extends op collection collection' :
  lgc.exec op collection = Some collection' ->
  exists added, lgc.LGCs collection' = lgc.LGCs collection ++ added.
Proof.
  destruct op as [| | idx | conn |]; simpl.
  - destruct (lgc.Lock_ (lgc.Lock collection)); simpl; [| discriminate].
    intros [= <-]. exists []. simpl. now rewrite app_nil_r.
  - destruct (lgc.Unlock (lgc.Lock collection)); simpl; [| discriminate].
    intros [= <-]. exists []. simpl. now rewrite app_nil_r.
  - pose proof (Get_LGCs collection idx) as HG.
    destruct (lgc.Get collection idx) as [c1 [x | msg |]]; simpl in HG;
      [intros [= <-] | intros [= <-] | discriminate];
      exists []; now rewrite app_nil_r.
  - destruct (lgc.locked (lgc.Lock collection)) eqn:H.
    + rewrite Append_locked by assumption. intros [= <-]. now exists [conn].
    + rewrite Append_unlocked by assumption. intros [= <-].
      exists []. now rewrite app_nil_r.
  - intros [= <-]. exists []. now rewrite app_nil_r.
Qed.

Lemma run_extends ops : forall collection,
  exists added, lgc.LGCs (lgc.run ops collection) = lgc.LGCs collection ++ added.
Proof.
  induction ops as [| op ops IH]; intros collection; simpl.
  - exists []. now rewrite app_nil_r.
  - destruct (lgc.exec op collection) as [collection' |] eqn:E.
    + destruct (exec_extends _ _ _ E) as [a1 H1].
      destruct (IH collection') as [a2 H2].
      exists (a1 ++ a2). now rewrite H2, H1, app_assoc.
    + exists []. now rewrite app_nil_r.
Qed.

Lemma lengths_lower_bound ops : forall collection,
  Forall (fun n => lgc.Len collection <= n) (lgc.lengths ops collection).
Proof.
  induction ops as [| op ops IH]; intros collection; simpl.
  - constructor; [lia | constructor].
  - constructor; [lia |].
    destruct (lgc.exec op collection) as [collection' |] eqn:E; [| constructor].
    destruct (exec_extends _ _ _ E) as [added Hadd].
    eapply Forall_impl; [| apply IH].
    intros n Hn. simpl in Hn. unfold lgc.Len in *. rewrite Hadd, len_app in Hn.
    unfold len in *. lia.
Qed.

Lemma lengths_sorted ops : forall collection,
  StronglySorted Z.le (lgc.lengths ops collection).
Proof.
  induction ops as [| op ops IH]; intros collection; simpl.
  - constructor; constructor.
  - constructor.
    + destruct (lgc.exec op collection) as [collection' |]; [apply IH | constructor].
    + destruct (lgc.exec op collection) as [collection' |] eqn:E; [| constructor].
      destruct (exec_extends _ _ _ E) as [added Hadd].
      eapply Forall_impl; [| apply lengths_lower_bound].
      intros n Hn. simpl in Hn. unfold lgc.Len in *. rewrite Hadd, len_app in Hn.
      unfold len in *. lia.
Qed.

(** C7.  [Get] and [Append] return the error "collection is unlocked"
    when the mutex of the collection is not held (their [TryLock]
    succeeds), and then the collection is left exactly as it was; a read
    or an append is performed only on a collection whose mutex is held,
    and on such a collection [Append] appends. *)
Theorem C7_Get_Append_require_held_lock collection idx conn :
  (lgc.locked (lgc.Lock collection) = false ->
     lgc.Get collection idx = (collection, Err "collection is unlocked")
     /\ lgc.Append collection conn = (collection, Err "collection is unlocked"))
  /\ (forall collection' element,
        lgc.Get collection idx = (collection', Ok element) ->
        lgc.locked (lgc.Lock collection) = true
        /\ collection' = collection
        /\ index (lgc.LGCs collection) idx = Some element)
  /\ (forall collection',
        lgc.Append collection conn = (collection', Ok tt) ->
        lgc.locked (lgc.Lock collection) = true
        /\ lgc.LGCs collection' = lgc.LGCs collection ++ [conn])
  /\ (lgc.locked (lgc.Lock collection) = true ->
        lgc.Append collection conn =
          ({| lgc.Lock := lgc.Lock collection;
              lgc.LGCs := lgc.LGCs collection ++ [conn] |}, Ok tt)).
Proof.
  repeat split.
  - now apply Get_unlocked.
  - now apply Append_unlocked.
  - destruct (lgc.locked (lgc.Lock collection)) eqn:E; [reflexivity |].
    rewrite Get_unlocked in H by assumption. discriminate.
  - destruct (lgc.locked (lgc.Lock collection)) eqn:E.
    + rewrite Get_locked in H by assumption.
      destruct (idx >? lgc.Len collection); [discriminate |].
      destruct (index (lgc.LGCs collection) idx); now inversion H.
    + rewrite Get_unlocked in H by assumption. discriminate.
  - destruct (lgc.locked (lgc.Lock collection)) eqn:E.
    + rewrite Get_locked in H by assumption.
      destruct (idx >? lgc.Len collection); [discriminate |].
      destruct (index (lgc.LGCs collection) idx); now inversion H.
    + rewrite Get_unlocked in H by assumption. discriminate.
  - destruct (lgc.locked (lgc.Lock collection)) eqn:E; [reflexivity |].
    rewrite Append_unlocked in H by assumption. discriminate.
  - destruct (lgc.locked (lgc.Lock collection)) eqn:E.
    + rewrite Append_locked in H by assumption. now inversion H.
    + rewrite Append_unlocked in H by assumption. discriminate.
  - now apply Append_locked.
Qed.

(** C8.  The pool is append-only: a successful [Append] makes the pool
    one longer and leaves every element at its index; whatever sequence
    of operations is run ([Get], [Append], [Len], and locking or unlocking
    the mutex), the elements of the start are a prefix of the elements of
    the end, and the lengths observed along the run never decrease. *)
Theorem C8_collection_append_only collection :
  (forall conn collection',
     lgc.Append collection conn = (collection', Ok tt) ->
     lgc.Len collection' = lgc.Len collection + 1
     /\ forall i element,
          index (lgc.LGCs collection) i = Some element ->
          index (lgc.LGCs collection') i = Some element)
  /\ (forall ops,
        (exists added,
           lgc.LGCs (lgc.run ops collection) = lgc.LGCs collection ++ added)
        /\ (forall i element,
              index (lgc.LGCs collection) i = Some element ->
              index (lgc.LGCs (lgc.run ops collection)) i = Some element)
        /\ lgc.Len collection <= lgc.Len (lgc.run ops collection)
        /\ StronglySorted Z.le (lgc.lengths ops collection)).
Proof.
  split.
  - intros conn collection' H.
    destruct (lgc.locked (lgc.Lock collection)) eqn:E.
    + rewrite Append_locked in H by assumption. inversion H; subst; clear H.
      unfold lgc.Len. simpl. rewrite len_app. split; [reflexivity |].
      intros i element Hi. now apply index_app_l.
    + rewrite Append_unlocked in H by assumption. discriminate.
  - intros ops. destruct (run_extends ops collection) as [added Hadd].
    repeat split.
    + now exists added.
    + intros i element Hi. rewrite Hadd. now apply index_app_l.
    + unfold lgc.Len. rewrite Hadd, len_app. unfold len. lia.
    + apply lengths_sorted.
Qed.

(** C9.  On a collection of length [n] whose mutex is held, [Get]
    answers "index too large" exactly for [idx > n]; [Get n] passes that
    check and its indexing is out of range (a panic); [Get] returns an
    element exactly for [0 <= idx < n], and it is the element at [idx]. *)
Theorem C9_Get_bounds collection idx :
  lgc.locked (lgc.Lock collection) = true ->
  let n := lgc.Len collection in
  (snd (lgc.Get collection idx) = Err "index too large" <-> idx > n)
  /\ lgc.Get collection n = (collection, Panic)
  /\ ((exists element, snd (lgc.Get collection idx) = Ok element)
      <-> 0 <= idx < n)
  /\ (forall element,
        snd (lgc.Get collection idx) = Ok element ->
        index (lgc.LGCs collection) idx = Some element).
Proof.
  intros Hheld n. subst n. unfold lgc.Len.
  repeat split.
  - rewrite Get_locked by assumption. unfold lgc.Len.
    destruct (Z.gtb_spec idx (len (lgc.LGCs collection))); [lia |].
    destruct (index (lgc.LGCs collection) idx); simpl; discriminate.
  - intros H. rewrite Get_locked by assumption. unfold lgc.Len.
    destruct (Z.gtb_spec idx (len (lgc.LGCs collection))); [reflexivity | lia].
  - rewrite Get_locked by assumption. unfold lgc.Len.
    destruct (Z.gtb_spec (len (lgc.LGCs collection)) (len (lgc.LGCs collection)));
      [lia |].
    now rewrite (proj2 (index_None_iff _ _)) by lia.
  - apply (proj1 (index_Some_iff (lgc.LGCs collection) idx)).
    destruct H as [element H]. rewrite Get_locked in H by assumption.
    destruct (idx >? lgc.Len collection); [discriminate |].
    destruct (index (lgc.LGCs collection) idx) as [x |]; [eauto | discriminate].
  - apply (proj1 (index_Some_iff (lgc.LGCs collection) idx)).
    destruct H as [element H]. rewrite Get_locked in H by assumption.
    destruct (idx >? lgc.Len collection); [discriminate |].
    destruct (index (lgc.LGCs collection) idx) as [x |]; [eauto | discriminate].
  - intros [H0 Hn]. rewrite Get_locked by assumption. unfold lgc.Len.
    destruct (Z.gtb_spec idx (len (lgc.LGCs collection))); [lia |].
    destruct (proj2 (index_Some_iff (lgc.LGCs collection) idx)) as [x Hx];
      [lia |].
    rewrite Hx. now exists x.
  - intros element H. rewrite Get_locked in H by assumption.
    destruct (idx >? lgc.Len collection); [discriminate |].
    destruct (index (lgc.LGCs collection) idx) as [x |]; simpl in H;
      [congruence | discriminate].
Qed.

End CollectionProperties.

Lemma C7_witness :
  (lgc.Get (scenario.pool false [7; 8]%nat) 0 = (scenario.pool false [7; 8]%nat, Err "collection is unlocked")
   /\ lgc.Append (scenario.pool false [7; 8]%nat) 9%nat
      = (scenario.pool false [7; 8]%nat, Err "collection is unlocked"))
  /\ lgc.Append (scenario.pool true [7; 8]%nat) 9%nat = (scenario.pool true [7; 8; 9]%nat, Ok tt).
Proof.
  split.
  - exact (proj1 (C7_Get_Append_require_held_lock nat (scenario.pool false [7; 8]%nat) 0 9%nat)
             eq_refl).
  - exact (proj2 (proj2 (proj2
             (C7_Get_Append_require_held_lock nat (scenario.pool true [7; 8]%nat) 0 9%nat)))
             eq_refl).
Defined.

Lemma C8_witness :
  lgc.Len (scenario.pool true [7; 8; 9]%nat) = lgc.Len (scenario.pool true [7; 8]%nat) + 1
  /\ index (lgc.LGCs (scenario.pool true [7; 8; 9]%nat)) 1 = Some 8%nat.
Proof.
  destruct (proj1 (C8_collection_append_only nat (scenario.pool true [7; 8]%nat))
              9%nat (scenario.pool true [7; 8; 9]%nat) eq_refl) as [Hlen Hkeep].
  split; [exact Hlen | exact (Hkeep 1 8%nat eq_refl)].
Defined.

Lemma C9_witness :
  lgc.Get (scenario.pool true [7; 8]%nat) 2 = (scenario.pool true [7; 8]%nat, Panic)
  /\ (snd (lgc.Get (scenario.pool true [7; 8]%nat) 3) = Err "index too large" <-> 3 > 2).
Proof.
  split.
  - exact (proj1 (proj2 (C9_Get_bounds nat (scenario.pool true [7; 8]%nat) 0 eq_refl))).
  - exact (proj1 (C9_Get_bounds nat (scenario.pool true [7; 8]%nat) 3 eq_refl)).
Defined.

(** ** [CalculatePercentile] *)

Lemma wrap_int_small (z : Z) :
  - 2 ^ 63 <= z <= utilities.max_int -> utilities.wrap_int z = z.
Proof.
  unfold utilities.wrap_int, utilities.max_int. intros H.
  rewrite Z.mod_small; lia.
Qed.

Lemma len_nonneg {A : Type} (s : list A) : 0 <= len s.
Proof. unfold len. lia. Qed.

Lemma len_Permutation {A : Type} (s t : list A) :
  Permutation s t -> len s = len t.
Proof. intros H. unfold len. now rewrite (Permutation_length H). Qed.

Section PercentileProperties.

Variable S : Type.
Variable less : S -> S -> bool.
Variable sort_Slice : (S -> S -> bool) -> list S -> list S.

(** What [sort.Slice] guarantees for a comparison that is a strict
    ordering: the slice is rearranged, and afterwards no element is
    smaller than one before it. *)
Hypothesis less_irreflexive : forall a, less a a = false.
Hypothesis sort_Slice_permutes :
  forall l, Permutation (sort_Slice less l) l.
Hypothesis sort_Slice_sorts :
  forall l, StronglySorted (fun a b => less b a = false) (sort_Slice less l).

(** C1.  For a non-empty slice and [0 <= percentile < 100] the slice is
    sorted, the index computed is 0 (the integer division comes first),
    and the value returned is a smallest element of the slice. *)
Theorem C1_CalculatePercentile_below_100 (elements : list S) (percentile : Z) :
  elements <> [] ->
  0 <= percentile < 100 ->
  utilities.percentileIdx (len (sort_Slice less elements)) percentile = 0
  /\ exists smallest,
       utilities.CalculatePercentile less sort_Slice elements percentile
       = (sort_Slice less elements, Some smallest)
       /\ In smallest elements
       /\ forall x, In x elements -> less x smallest = false.
Proof.
  intros Hne Hp.
  assert (Hidx : utilities.percentileIdx (len (sort_Slice less elements)) percentile = 0).
  { unfold utilities.percentileIdx. rewrite Z.quot_small by lia.
    now rewrite Z.mul_0_r. }
  split; [exact Hidx |].
  unfold utilities.CalculatePercentile. rewrite Hidx.
  pose proof (sort_Slice_permutes elements) as Hperm.
  pose proof (sort_Slice_sorts elements) as Hsorted.
  destruct (sort_Slice less elements) as [| smallest rest] eqn:E.
  - apply Permutation_nil in Hperm. contradiction.
  - exists smallest. split; [reflexivity |]. split.
    + apply (Permutation_in _ Hperm). now left.
    + intros x Hx. apply Permutation_sym in Hperm.
      apply (Permutation_in _ Hperm) in Hx. destruct Hx as [<- | Hx].
      * apply less_irreflexive.
      * apply StronglySorted_inv in Hsorted. destruct Hsorted as [_ Hall].
        rewrite Forall_forall in Hall. now apply Hall.
Qed.

(** C10.  With [percentile = 100] the index computed is the length of
    the slice, one past its end, and the indexing panics: the function
    does not return.  (The slice need not even be non-empty.) *)
Theorem C10_CalculatePercentile_100_panics (elements : list S) :
  len elements <= utilities.max_int ->
  utilities.percentileIdx (len (sort_Slice less elements)) 100 = len elements
  /\ utilities.CalculatePercentile less sort_Slice elements 100
     = (sort_Slice less elements, None).
Proof.
  intros Hlen.
  pose proof (len_Permutation _ _ (sort_Slice_permutes elements)) as Hsame.
  assert (Hidx : utilities.percentileIdx (len (sort_Slice less elements)) 100
                 = len elements).
  { unfold utilities.percentileIdx. change (Z.quot 100 100) with 1.
    rewrite Z.mul_1_r, Hsame. apply wrap_int_small.
    pose proof (len_nonneg elements). lia. }
  split; [exact Hidx |].
  unfold utilities.CalculatePercentile. rewrite Hidx, <- Hsame.
  f_equal. apply index_None_iff. right. lia.
Qed.

End PercentileProperties.

(** The insertion sort on [int64] elements meets the guarantees. *)
Lemma insert_Permutation (x : Z) (l : list Z) :
  Permutation (utilities.insert Z.ltb x l) (x :: l).
Proof.
  induction l as [| y l IH]; simpl; [reflexivity |].
  destruct (x <? y); [reflexivity |].
  rewrite IH. apply perm_swap.
Qed.

Lemma insertion_sort_Permutation (l : list Z) :
  Permutation (utilities.insertion_sort Z.ltb l) l.
Proof.
  induction l as [| x l IH]; simpl; [reflexivity |].
  rewrite insert_Permutation. now constructor.
Qed.

Lemma insert_sorted (x : Z) (l : list Z) :
  StronglySorted (fun a b => (b <? a) = false) l ->
  StronglySorted (fun a b => (b <? a) = false) (utilities.insert Z.ltb x l).
Proof.
  induction 1 as [| y l Hl IH Hy]; simpl.
  - repeat constructor.
  - destruct (Z.ltb_spec x y) as [Hlt | Hge].
    + constructor; [now constructor |].
      constructor; [apply Z.ltb_ge; lia |].
      eapply Forall_impl; [| exact Hy].
      intros b Hb. simpl in Hb. apply Z.ltb_ge in Hb. apply Z.ltb_ge. lia.
    + constructor; [exact IH |].
      apply (Permutation_Forall (Permutation_sym (insert_Permutation x l))).
      constructor; [apply Z.ltb_ge; lia | exact Hy].
Qed.

Lemma insertion_sort_sorted (l : list Z) :
  StronglySorted (fun a b => (b <? a) = false) (utilities.insertion_sort Z.ltb l).
Proof.
  induction l as [| x l IH]; simpl; [constructor | now apply insert_sorted].
Qed.

Lemma C1_witness :
  utilities.percentileIdx (len (utilities.insertion_sort Z.ltb [30; 10; 20])) 90 = 0
  /\ exists smallest,
       utilities.CalculatePercentile Z.ltb utilities.insertion_sort [30; 10; 20] 90
       = (utilities.insertion_sort Z.ltb [30; 10; 20], Some smallest)
       /\ In smallest [30; 10; 20]
       /\ forall x, In x [30; 10; 20] -> (x <? smallest) = false.
Proof.
  exact (C1_CalculatePercentile_below_100 Z Z.ltb utilities.insertion_sort
           Z.ltb_irrefl insertion_sort_Permutation insertion_sort_sorted
           [30; 10; 20] 90 ltac:(discriminate) ltac:(lia)).
Defined.

Lemma C10_witness :
  utilities.CalculatePercentile Z.ltb utilities.insertion_sort [30; 10; 20] 100
  = ([10; 20; 30], None).
Proof.
  exact (proj2 (C10_CalculatePercentile_100_panics Z Z.ltb utilities.insertion_sort
                  insertion_sort_Permutation [30; 10; 20]
                  ltac:(vm_compute; discriminate))).
Defined.

(** ** The order of binary64 values *)

Lemma SFcompare_antisym (x y : spec_float) :
  SFcompare y x = option_map CompOpp (SFcompare x y).
Proof.
  destruct x as [sx | sx | | sx mx ex], y as [sy | sy | | sy my ey];
    try destruct sx; try destruct sy; simpl; try reflexivity.
  - rewrite (Z.compare_antisym ex ey).
    destruct (ex ?= ey); simpl; try reflexivity.
    now rewrite (Pos.compare_cont_antisym mx my Eq).
  - rewrite (Z.compare_antisym ex ey).
    destruct (ex ?= ey); simpl; try reflexivity.
    now rewrite (Pos.compare_cont_antisym mx my Eq).
Qed.

(** [a <= b] excludes [b < a]. *)
Lemma leb_not_ltb (a b : float) :
  (a <=? b)%float = true -> (b <? a)%float = false.
Proof.
  rewrite FloatAxioms.leb_spec, FloatAxioms.ltb_spec. unfold SFleb, SFltb.
  rewrite (SFcompare_antisym (Prim2SF a) (Prim2SF b)).
  destruct (SFcompare (Prim2SF a) (Prim2SF b)) as [[| |] |]; simpl;
    intros H; try reflexivity; discriminate.
Qed.

(** A value above the loss threshold is not negative. *)
Lemma above_threshold_not_negative (x : float) :
  (qualityattenuation.latencyEqLossThreshold <? x)%float = true ->
  (x <? 0)%float = false.
Proof.
  rewrite !FloatAxioms.ltb_spec.
  change (Prim2SF qualityattenuation.latencyEqLossThreshold)
    with (S754_finite false 8444249301319680 (-49)).
  change (Prim2SF 0) with (S754_zero false).
  unfold SFltb.
  destruct (Prim2SF x) as [s | s | | s m e]; try destruct s; simpl;
    intros H; try reflexivity; discriminate.
Qed.

(** ** Quality attenuation *)

Section AddSampleProperties.

Import qualityattenuation.

(** The definition replays the unit tests of the repository.
    [TestBasicSimpleQualityAttenuation]: *)
Example TestBasicSimpleQualityAttenuation_passes :
  let qa := AddSamples NewSimpleQualityAttenuation [1; 2; 3]%float in
  numberOfSamples qa = 3
  /\ numberOfLosses qa = 0
  /\ InEpsilon 1 (minimumLatency qa) 0.000001 = true
  /\ InEpsilon 3 (maximumLatency qa) 0.000001 = true
  /\ InEpsilon 5.7 (offsetSum qa) 0.000001 = true
  /\ InEpsilon 12.83 (offsetSumOfSquares qa) 0.000001 = true
  /\ InEpsilon 2 (GetAverage qa) 0.000001 = true
  /\ InEpsilon 1 (GetVariance qa) 0.000001 = true
  /\ InEpsilon 1 (GetStandardDeviation qa) 0.000001 = true
  /\ InEpsilon 1 (GetLossPercentage qa + 1) 0.000001 = true
  /\ InEpsilon 30 (GetRPM qa) 0.000001 = true.
Proof. vm_compute. repeat split. Qed.

(** [TestManySamples]: 159999 samples, of which the 9999 from 15.0001
    on are losses; the sample 15.0 is not. *)
Example TestManySamples_passes :
  let qa := AddSamples NewSimpleQualityAttenuation ramp in
  numberOfSamples qa = 160000 - 1
  /\ numberOfLosses qa = 10000 - 1
  /\ InEpsilon 0.0001 (minimumLatency qa) 0.000001 = true
  /\ InEpsilon 15.0000 (maximumLatency qa) 0.000001 = true
  /\ InEpsilon 1110007.5 (offsetSum qa) 0.000001 = true
  /\ InEpsilon 11026611.00024998 (offsetSumOfSquares qa) 0.000001 = true
  /\ InEpsilon 7.500049 (GetAverage qa) 0.000001 = true
  /\ InEpsilon 18.750120 (GetVariance qa) 0.000001 = true
  /\ InEpsilon 4.330141 (GetStandardDeviation qa) 0.000001 = true
  /\ InEpsilon 6.249414 (GetLossPercentage qa) 0.000001 = true
  /\ InEpsilon 7.999947 (GetRPM qa) 0.000001 = true.
Proof. vm_compute. repeat split. Qed.

(** Were a sample of exactly 15 s a loss, the ramp would have 10000
    losses and the test would fail. *)
Example ramp_samples_from_threshold :
  len (filter (fun sample => (latencyEqLossThreshold <=? sample)%float) ramp)
  = 10000
  /\ len (filter (fun sample => (latencyEqLossThreshold <? sample)%float) ramp)
     = 9999.
Proof. vm_compute. split; reflexivity. Qed.

(** C4, as the code has it.  A sample strictly above 15 s is counted in
    [numberOfLosses] and enters neither the distribution nor the offset
    aggregates; a sample from 0 s to 15 s, 15 s included, is live: the
    loss counter stays, the sample enters the distribution and the two
    aggregates take it relative to the offset. *)
Theorem C4_AddSample_loss_above_threshold
  (qa : SimpleQualityAttenuation) (sample : float) :
  ((latencyEqLossThreshold <? sample)%float = true ->
   let qa' := fst (AddSample qa sample) in
   snd (AddSample qa sample) = Ok tt
   /\ numberOfSamples qa' = numberOfSamples qa + 1
   /\ numberOfLosses qa' = numberOfLosses qa + 1
   /\ empiricalDistribution qa' = empiricalDistribution qa
   /\ offsetSum qa' = offsetSum qa
   /\ offsetSumOfSquares qa' = offsetSumOfSquares qa)
  /\ ((0 <=? sample)%float = true ->
      (sample <=? latencyEqLossThreshold)%float = true ->
      let qa' := fst (AddSample qa sample) in
      snd (AddSample qa sample) = Ok tt
      /\ numberOfSamples qa' = numberOfSamples qa + 1
      /\ numberOfLosses qa' = numberOfLosses qa
      /\ empiricalDistribution qa' = sample :: empiricalDistribution qa
      /\ offsetSum qa' = (offsetSum qa + (sample - offset))%float
      /\ offsetSumOfSquares qa'
         = (offsetSumOfSquares qa + (sample - offset) * (sample - offset))%float).
Proof.
  split.
  - intros Habove. unfold AddSample.
    rewrite (above_threshold_not_negative sample Habove), Habove. simpl.
    repeat split.
  - intros Hnonneg Hbelow. unfold AddSample.
    rewrite (leb_not_ltb 0 sample Hnonneg), (leb_not_ltb _ _ Hbelow). simpl.
    repeat split.
Qed.

End AddSampleProperties.

Lemma C4_witness :
  (let qa' := fst (qualityattenuation.AddSample
                     qualityattenuation.NewSimpleQualityAttenuation 20) in
   snd (qualityattenuation.AddSample
          qualityattenuation.NewSimpleQualityAttenuation 20) = Ok tt
   /\ qualityattenuation.numberOfSamples qa' = 0 + 1
   /\ qualityattenuation.numberOfLosses qa' = 0 + 1
   /\ qualityattenuation.empiricalDistribution qa' = []
   /\ qualityattenuation.offsetSum qa' = 0%float
   /\ qualityattenuation.offsetSumOfSquares qa' = 0%float)
  /\ qualityattenuation.numberOfLosses
       (fst (qualityattenuation.AddSample
               qualityattenuation.NewSimpleQualityAttenuation 15)) = 0.
Proof.
  split.
  - exact (proj1 (C4_AddSample_loss_above_threshold
                    qualityattenuation.NewSimpleQualityAttenuation 20) eq_refl).
  - exact (proj1 (proj2 (proj2
             (proj2 (C4_AddSample_loss_above_threshold
                       qualityattenuation.NewSimpleQualityAttenuation 15)
                eq_refl eq_refl)))).
Defined.

(** C4 as it was stated fails at its boundary: a sample of exactly 15 s
    (which is [>= 15]) leaves the loss counter alone and enters the
    distribution and the aggregates; and a sample below 15 s that is
    negative is rejected, not counted as live. *)
Lemma C4_counterexample :
  (qualityattenuation.latencyEqLossThreshold <=? 15)%float = true
  /\ qualityattenuation.AddSample qualityattenuation.NewSimpleQualityAttenuation 15
     = ({| qualityattenuation.empiricalDistribution := [15%float];
           qualityattenuation.offsetSum := 14.9%float;
           qualityattenuation.offsetSumOfSquares := (14.9 * 14.9)%float;
           qualityattenuation.numberOfSamples := 1;
           qualityattenuation.numberOfLosses := 0;
           qualityattenuation.minimumLatency := 15%float;
           qualityattenuation.maximumLatency := 15%float |}, Ok tt)
  /\ (-1 <? qualityattenuation.latencyEqLossThreshold)%float = true
  /\ qualityattenuation.AddSample qualityattenuation.NewSimpleQualityAttenuation (-1)
     = (qualityattenuation.NewSimpleQualityAttenuation, Err "sample is negative").
Proof. vm_compute. repeat split. Qed.

(** ** The orchestrator *)

Lemma Iota_loop_length (n : nat) : forall counter,
  List.length (utilities.Iota_loop counter n) = n.
Proof. induction n as [| n IH]; intros counter; simpl; [| rewrite IH]; reflexivity. Qed.

Lemma Iota_from_zero (high : Z) :
  0 <= high <= utilities.max_int ->
  utilities.Iota 0 high = Some (utilities.Iota_loop 0 (Z.to_nat high)).
Proof.
  intros H. unfold utilities.Iota. rewrite Z.sub_0_r.
  rewrite wrap_int_small by (unfold utilities.max_int in *; lia).
  destruct (Z.ltb_spec high 0); [lia | reflexivity].
Qed.

Lemma fold_left_AddElement (v : float) (indices : list Z) : forall series,
  fold_left (fun series (_ : Z) => networkQuality.AddElement series v) indices series
  = series ++ repeat v (List.length indices).
Proof.
  induction indices as [| i indices IH]; intros series; simpl.
  - now rewrite app_nil_r.
  - rewrite IH. unfold networkQuality.AddElement. now rewrite <- app_assoc.
Qed.

Lemma addForeignRtts_spec (series : networkQuality.MathematicalSeries)
  (probeMeasurement : networkQuality.ProbeDataPoint) :
  0 <= networkQuality.RoundTripCount probeMeasurement <= utilities.max_int ->
  networkQuality.addForeignRtts series probeMeasurement
  = Some (series
          ++ spec.subSamples
               (time.Seconds (networkQuality.Duration probeMeasurement))
               (networkQuality.RoundTripCount probeMeasurement)).
Proof.
  intros H. unfold networkQuality.addForeignRtts.
  rewrite wrap_int_small by (unfold utilities.max_int in *; lia).
  rewrite Iota_from_zero by assumption.
  now rewrite fold_left_AddElement, Iota_loop_length.
Qed.

Section OrchestratorProperties.

Import networkQuality.

Context {ThroughputStabilizer ProbeStabilizer SimpleQualityAttenuation : Type}.
Context {throughputStabilizer : Stabilizer ThroughputDataPoint ThroughputStabilizer}.
Context {probeStabilizerOps : Stabilizer ProbeDataPoint ProbeStabilizer}.
Context {qualityAttenuation : QualityAttenuation SimpleQualityAttenuation}.
Context {seriesStatistics : SeriesStatistics}.

Variable LoadGeneratingConnection : Type.
Variable AggregateExtendedStats : Type.
Variable ExtendedStatsAvailable : bool.
Variable NewAggregateExtendedStats : AggregateExtendedStats.
Variable IncorporateConnectionStats :
  AggregateExtendedStats -> LoadGeneratingConnection ->
  AggregateExtendedStats * option string.

Implicit Types (st : TestState ThroughputStabilizer ProbeStabilizer SimpleQualityAttenuation).
Implicit Types (flags : Flags) (events : list Event).
Implicit Types (w : World SimpleQualityAttenuation LoadGeneratingConnection AggregateExtendedStats).

(** C5, as the code has it.  A foreign measurement of [k >= 1] round
    trips and duration [d] adds exactly [k] elements to the foreign
    series, each the binary64 quotient [d / k]; a self measurement (down
    or up) adds the one duration [d] to the self series.  Nothing is said
    of the sum of the [k] quotients: in binary64 it need not be [d]. *)
Theorem C5_probe_measurement_split flags st probeMeasurement :
  let d := time.Seconds (Duration probeMeasurement) in
  let k := RoundTripCount probeMeasurement in
  (Type_ probeMeasurement = Foreign ->
   1 <= k <= utilities.max_int ->
   exists st',
     onProbe flags st probeMeasurement = Some st'
     /\ foreignRtts st' = foreignRtts st ++ repeat (d / float64_of_Z k)%float (Z.to_nat k)
     /\ len (foreignRtts st') = len (foreignRtts st) + k
     /\ selfRtts st' = selfRtts st)
  /\ (Type_ probeMeasurement <> Foreign ->
      exists st',
        onProbe flags st probeMeasurement = Some st'
        /\ selfRtts st' = selfRtts st ++ [d]
        /\ foreignRtts st' = foreignRtts st).
Proof.
  intros d k. split.
  - intros Hforeign Hk. unfold onProbe. rewrite Hforeign.
    rewrite addForeignRtts_spec by (fold k; lia).
    eexists. split; [reflexivity |]. simpl. fold d k. unfold spec.subSamples.
    repeat split. rewrite len_app. unfold len at 2. rewrite repeat_length. lia.
  - intros Hself. unfold onProbe.
    destruct (Type_ probeMeasurement); try contradiction;
      (eexists; split; [reflexivity |]; simpl; fold d; split; reflexivity).
Qed.

(** *** The main loop *)

(** The loop is left by its condition exactly when the three flags are
    set, and by the timeout only when they are not. *)
Lemma loop_exit flags events : forall st exit st',
  loop flags st events = Exited exit st' ->
  allStable st' = match exit with Stabilized => true | TimedOut => false end.
Proof.
  induction events as [| event events IH]; intros st exit st'; simpl;
    destruct (allStable st) eqn:E.
  - intros [= <- <-]. exact E.
  - discriminate.
  - intros [= <- <-]. exact E.
  - destruct event as [m | m | m |].
    + apply IH.
    + apply IH.
    + destruct (onProbe flags st m) as [st1 |]; [apply IH | discriminate].
    + intros [= <- <-]. exact E.
Qed.

(** Each flag is the verdict of its stabilizer on the measurements it
    was given: the loop keeps that. *)
Lemma loop_flags_agree flags events : forall st exit st',
  responsivenessIsStable st = IsStable (probeStabilizer st) ->
  downloadThroughputIsStable st = IsStable (downloadThroughputStabilizer st) ->
  uploadThroughputIsStable st = IsStable (uploadThroughputStabilizer st) ->
  loop flags st events = Exited exit st' ->
  responsivenessIsStable st' = IsStable (probeStabilizer st')
  /\ downloadThroughputIsStable st' = IsStable (downloadThroughputStabilizer st')
  /\ uploadThroughputIsStable st' = IsStable (uploadThroughputStabilizer st').
Proof.
  induction events as [| event events IH]; intros st exit st' Hp Hd Hu; simpl;
    destruct (allStable st) eqn:E.
  - intros [= <- <-]. auto.
  - discriminate.
  - intros [= <- <-]. auto.
  - destruct event as [m | m | m |].
    + apply IH; simpl; auto.
    + apply IH; simpl; auto.
    + destruct (onProbe flags st m) as [st1 |] eqn:E1; [| discriminate].
      apply IH; unfold onProbe in E1;
        destruct (Type_ m);
        try destruct (addForeignRtts (foreignRtts st) m);
        inversion E1; subst; simpl; auto.
    + intros [= <- <-]. auto.
Qed.

(** The two series at the exit are the latencies of the events that the
    loop consumed. *)
Lemma loop_series flags events : forall st exit st',
  Forall spec.wellFormed events ->
  loop flags st events = Exited exit st' ->
  exists consumed rest,
    events = consumed ++ rest
    /\ selfRtts st' = selfRtts st ++ spec.selfLatencies consumed
    /\ foreignRtts st' = foreignRtts st ++ spec.foreignLatencies consumed.
Proof.
  induction events as [| event events IH]; intros st exit st' Hwf; simpl;
    destruct (allStable st) eqn:E.
  - intros [= <- <-]. exists [], []. simpl. now rewrite !app_nil_r.
  - discriminate.
  - intros [= <- <-]. exists [], (event :: events). simpl. now rewrite !app_nil_r.
  - inversion Hwf as [| ? ? Hev Hrest]; subst.
    destruct event as [m | m | m |].
    + intros H. destruct (IH _ _ _ Hrest H) as (consumed & rest & -> & Hs & Hf).
      exists (DownloadThroughputMeasurement m :: consumed), rest. now simpl in *.
    + intros H. destruct (IH _ _ _ Hrest H) as (consumed & rest & -> & Hs & Hf).
      exists (UploadThroughputMeasurement m :: consumed), rest. now simpl in *.
    + destruct (onProbe flags st m) as [st1 |] eqn:E1; [| discriminate].
      intros H. destruct (IH _ _ _ Hrest H) as (consumed & rest & -> & Hs & Hf).
      exists (ProbeMeasurement m :: consumed), rest.
      split; [reflexivity |]. simpl in Hev. unfold onProbe in E1.
      rewrite Hs, Hf. simpl.
      destruct (Type_ m).
      * inversion E1; subst; simpl. unfold AddElement.
        now rewrite <- ?app_assoc, ?app_nil_r.
      * inversion E1; subst; simpl. unfold AddElement.
        now rewrite <- ?app_assoc, ?app_nil_r.
      * rewrite addForeignRtts_spec in E1 by assumption.
        inversion E1; subst; simpl. now rewrite <- ?app_assoc, ?app_nil_r.
    + intros [= <- <-]. exists [], (TimeoutFired :: events). simpl.
      now rewrite !app_nil_r.
Qed.

(** Once the timeout is among the events, the loop is left, whatever
    the measurements are. *)
Lemma loop_exits_by_timeout flags events : forall st,
  Forall spec.wellFormed events ->
  In TimeoutFired events ->
  exists exit st', loop flags st events = Exited exit st'.
Proof.
  induction events as [| event events IH]; intros st Hwf Hin; [contradiction |].
  simpl. destruct (allStable st); [eauto |].
  inversion Hwf as [| ? ? Hev Hrest]; subst.
  destruct event as [m | m | m |].
  - destruct Hin as [? | Hin]; [discriminate | now apply IH].
  - destruct Hin as [? | Hin]; [discriminate | now apply IH].
  - destruct Hin as [? | Hin]; [discriminate |].
    assert (Hsome : exists st1, onProbe flags st m = Some st1).
    { unfold onProbe. destruct (Type_ m); eauto.
      simpl in Hev. rewrite addForeignRtts_spec by assumption. eauto. }
    destruct Hsome as [st1 ->]. now apply IH.
  - eauto.
Qed.

(** *** Teardown and report *)

Lemma index_middle {A : Type} (pre rest : list A) (x : A) :
  index (pre ++ x :: rest) (len pre) = Some x.
Proof.
  unfold index, len. destruct (Z.ltb_spec (Z.of_nat (List.length pre)) 0); [lia |].
  rewrite Nat2Z.id, nth_error_app2, Nat.sub_diag; [reflexivity | lia].
Qed.

(** With the mutex held, the loop over the pool reads the statistics of
    every connection, in order, and does nothing else to the outside but
    print its warnings. *)
Lemma aggregateLoop_spec (rest : list LoadGeneratingConnection) :
  forall (pre : list LoadGeneratingConnection) (extendedStats : AggregateExtendedStats),
  exists result warnings,
  forall w,
    aggregateLoop LoadGeneratingConnection AggregateExtendedStats
      IncorporateConnectionStats
      (utilities.Iota_loop (len pre) (List.length rest))
      {| lgc.Lock := {| lgc.locked := true |}; lgc.LGCs := pre ++ rest |}
      extendedStats w
    = ({| actions := actions w ++ map ReadConnectionStats rest;
          stdout := stdout w;
          stderr := stderr w ++ warnings;
          files := files w |}, Some result).
Proof.
  induction rest as [| x rest IH]; intros pre extendedStats.
  - exists extendedStats, []. intros [a o e f]. simpl. unfold ret.
    now rewrite !app_nil_r.
  - destruct (IncorporateConnectionStats extendedStats x) as [stats1 err] eqn:E.
    destruct (IH (pre ++ [x]) stats1) as (result & warnings & H).
    exists result.
    exists (match err with
            | Some e =>
                ["Warning: Could not add extended stats for the connection: " ++ e]%string
            | None => []
            end ++ warnings).
    intros [a o e f]. simpl.
    rewrite Get_locked by reflexivity. unfold lgc.Len. simpl.
    rewrite len_app.
    destruct (Z.gtb_spec (len pre) (len pre + len (x :: rest))) as [Hgt | _];
      [pose proof (len_nonneg (x :: rest)); lia |].
    rewrite index_middle. unfold bind at 1. simpl. rewrite E.
    assert (Hnext : len (pre ++ [x]) = len pre + 1)
      by (rewrite len_app; reflexivity).
    rewrite <- Hnext.
    replace (pre ++ x :: rest) with ((pre ++ [x]) ++ rest)
      by (now rewrite <- app_assoc).
    destruct err as [msg |]; unfold bind, Fprintf_stderr, ret; simpl;
      rewrite H; simpl; now rewrite <- ?app_assoc, ?app_nil_r.
Qed.

Lemma aggregateExtendedStats_spec (downloadLGCs : list LoadGeneratingConnection) :
  exists result warnings,
  forall w,
    aggregateExtendedStats LoadGeneratingConnection AggregateExtendedStats
      NewAggregateExtendedStats IncorporateConnectionStats downloadLGCs w
    = ({| actions := actions w ++ map ReadConnectionStats downloadLGCs;
          stdout := stdout w;
          stderr := stderr w ++ warnings;
          files := files w |}, Some result).
Proof.
  destruct (aggregateLoop_spec downloadLGCs [] NewAggregateExtendedStats)
    as (result & warnings & H).
  exists result, warnings. intros w. unfold aggregateExtendedStats, lgc.Len, len.
  simpl. rewrite Nat2Z.id. apply H.
Qed.

Lemma calculateExtendedStats_normalizeFlags flags :
  calculateExtendedStats (normalizeFlags ExtendedStatsAvailable flags)
  = calculateExtendedStats flags && ExtendedStatsAvailable.
Proof.
  unfold normalizeFlags.
  destruct (calculateExtendedStats flags) eqn:E, ExtendedStatsAvailable; simpl;
    try rewrite E; reflexivity.
Qed.

(** The code after the loop, on flags as the start-up leaves them: it
    returns (no panic), its actions are the teardown in order, and it
    prints the report. *)
Lemma afterLoop_spec flags st (downloadLGCs : list LoadGeneratingConnection) :
  let flags' := normalizeFlags ExtendedStatsAvailable flags in
  exists extendedStats warnings,
    afterLoop LoadGeneratingConnection AggregateExtendedStats
      ExtendedStatsAvailable NewAggregateExtendedStats IncorporateConnectionStats
      flags' st downloadLGCs emptyWorld
    = ({| actions := spec.teardownOrder (calculateExtendedStats flags') downloadLGCs;
          stdout :=
            (if debugCliFlag flags'
             then [StoppingGenerators
                     (utilities.Conditional (testRanToStability st) "success" "failure");
                   ProbeCounts
                     (len (selfRtts st)) (len (foreignRtts st))
                     (len (DoubleSidedTrim (selfRtts st) 10))
                     (len (DoubleSidedTrim (foreignRtts st) 10))
                     (Percentile (selfRtts st) 90) (Percentile (foreignRtts st) 90)
                     (CalculateAverage (DoubleSidedTrim (selfRtts st) 10))
                     (CalculateAverage (DoubleSidedTrim (foreignRtts st) 10))]
             else [])
            ++ (if printQualityAttenuation flags'
                then [QualityAttenuationStatistics (selfRttsQualityAttenuation st)]
                else [])
            ++ (if testRanToStability st then [] else [ResultsAreEstimates])
            ++ [RpmP90 (p90Rpm st); RpmTrimmedMean (meanRpm st);
                Download (utilities.ToMbps (lastDownloadThroughputRate st))
                         (utilities.ToMBps (lastDownloadThroughputRate st))
                         (lastDownloadThroughputOpenConnectionCount st);
                Upload (utilities.ToMbps (lastUploadThroughputRate st))
                       (utilities.ToMBps (lastUploadThroughputRate st))
                       (lastUploadThroughputOpenConnectionCount st)]
            ++ (if calculateExtendedStats flags'
                then [ExtendedStats extendedStats] else []);
          stderr := warnings;
          files :=
            if 0 <? Z.of_nat (String.length (prometheusStatsFilename flags'))
            then [(prometheusStatsFilename flags', prometheusBuffer st)] else [] |},
       Some tt).
Proof.
  intros flags'.
  pose proof (calculateExtendedStats_normalizeFlags flags) as Hcalc.
  fold flags' in Hcalc.
  destruct (aggregateExtendedStats_spec downloadLGCs) as (result & warnings & Hagg).
  destruct (calculateExtendedStats flags') eqn:Ecalc.
  - symmetry in Hcalc. apply andb_true_iff in Hcalc. destruct Hcalc as [_ Havail].
    exists result, warnings.
    unfold afterLoop, teardown, report, bind, when, act, Printf, WriteFile, ret.
    rewrite Ecalc, Havail.
    destruct (debugCliFlag flags'), (printQualityAttenuation flags'),
      (testRanToStability st),
      (0 <? Z.of_nat (String.length (prometheusStatsFilename flags')));
      simpl; rewrite Hagg; simpl; unfold spec.teardownOrder; simpl;
      rewrite <- ?app_assoc; reflexivity.
  - exists NewAggregateExtendedStats, [].
    unfold afterLoop, teardown, report, bind, when, act, Printf, WriteFile, ret.
    rewrite Ecalc.
    destruct (debugCliFlag flags'), (printQualityAttenuation flags'),
      (testRanToStability st),
      (0 <? Z.of_nat (String.length (prometheusStatsFilename flags')));
      reflexivity.
Qed.

Lemma cancellations_teardownOrder (gather : bool)
  (downloadLGCs : list LoadGeneratingConnection) :
  spec.cancellations (spec.teardownOrder gather downloadLGCs)
  = [proberOperatorCtx; downloadLoadGeneratorOperatorCtx;
     uploadLoadGeneratorOperatorCtx; networkActivityCtx; operatingCtx].
Proof.
  unfold spec.cancellations, spec.teardownOrder. simpl. rewrite flat_map_app.
  assert (H : forall l : list LoadGeneratingConnection,
             flat_map (fun a : Action LoadGeneratingConnection =>
                         match a with
                         | Cancel ctx => [ctx]
                         | ReadConnectionStats _ => []
                         end) (map ReadConnectionStats l) = []).
  { induction l as [| x l IH]; simpl; auto. }
  destruct gather; [rewrite H |]; reflexivity.
Qed.

(** What a returned run of [main] went through. *)
Lemma main_Returned flags events (downloadLGCs : list LoadGeneratingConnection)
  exit st w :
  main LoadGeneratingConnection AggregateExtendedStats ExtendedStatsAvailable
    NewAggregateExtendedStats IncorporateConnectionStats flags events downloadLGCs
  = Returned exit st w ->
  loop (normalizeFlags ExtendedStatsAvailable flags) initialState events
  = Exited exit st
  /\ afterLoop LoadGeneratingConnection AggregateExtendedStats
       ExtendedStatsAvailable NewAggregateExtendedStats IncorporateConnectionStats
       (normalizeFlags ExtendedStatsAvailable flags) st downloadLGCs emptyWorld
     = (w, Some tt).
Proof.
  unfold main.
  destruct (loop (normalizeFlags ExtendedStatsAvailable flags) initialState events)
    as [st0 | exit0 st0 |]; try discriminate.
  destruct (afterLoop _ _ _ _ _ _ st0 downloadLGCs emptyWorld) as [w0 [[] |]] eqn:E;
    [| discriminate].
  intros [= <- <- <-]. auto.
Qed.

(** Every run whose events are well formed and contain the firing of
    the timeout returns: [main] neither blocks for ever nor panics. *)
Lemma main_returns_by_timeout flags events
  (downloadLGCs : list LoadGeneratingConnection) :
  Forall spec.wellFormed events ->
  In TimeoutFired events ->
  exists exit st w,
    main LoadGeneratingConnection AggregateExtendedStats ExtendedStatsAvailable
      NewAggregateExtendedStats IncorporateConnectionStats flags events downloadLGCs
    = Returned exit st w.
Proof.
  intros Hwf Hin.
  destruct (loop_exits_by_timeout (normalizeFlags ExtendedStatsAvailable flags)
              events initialState Hwf Hin) as (exit & st & Hloop).
  destruct (afterLoop_spec flags st downloadLGCs) as (stats & warnings & Hafter).
  unfold main. rewrite Hloop, Hafter. eauto.
Qed.

(** C2.  At its end [main] prints, one after the other, the RPM of the
    P90s, 60 divided by the mean of the P90 of the self series and the
    P90 of the foreign series, both taken over the whole series, and the
    RPM of the trimmed means, 60 divided by the mean of the averages of
    the two series after a double-sided trim of 10 percent.  The two
    series are the latencies of the self probes and the sub-samples of
    the foreign probes that the loop consumed. *)
Theorem C2_final_rpm flags events
  (downloadLGCs : list LoadGeneratingConnection) exit st w :
  main LoadGeneratingConnection AggregateExtendedStats ExtendedStatsAvailable
    NewAggregateExtendedStats IncorporateConnectionStats flags events downloadLGCs
  = Returned exit st w ->
  (exists before after,
     stdout w
     = before
       ++ [ RpmP90 (60 / spec.mean (Percentile (selfRtts st) 90)
                                   (Percentile (foreignRtts st) 90))%float;
            RpmTrimmedMean
              (60 / spec.mean
                      (CalculateAverage (DoubleSidedTrim (selfRtts st) 10))
                      (CalculateAverage (DoubleSidedTrim (foreignRtts st) 10)))%float ]
       ++ after)
  /\ (Forall spec.wellFormed events ->
      exists consumed rest,
        events = consumed ++ rest
        /\ selfRtts st = spec.selfLatencies consumed
        /\ foreignRtts st = spec.foreignLatencies consumed).
Proof.
  intros Hmain. apply main_Returned in Hmain. destruct Hmain as [Hloop Hafter].
  split.
  - destruct (afterLoop_spec flags st downloadLGCs) as (stats & warnings & Hspec).
    rewrite Hspec in Hafter. inversion Hafter as [Hw]. simpl.
    unfold p90Rpm, meanRpm, spec.mean.
    eexists. eexists. apply app_two_in_the_middle.
  - intros Hwf.
    destruct (loop_series _ _ _ _ _ Hwf Hloop) as (consumed & rest & He & Hs & Hf).
    exists consumed, rest. auto.
Qed.

(** C6.  However the loop is left (stabilization or timeout), [main]
    returns, and what it did to the outside is, in this order: cancel the
    prober operator, the download operator and the upload operator; read
    the statistics of the download connections (when extended statistics
    are requested and available); cancel the network activity; cancel the
    operating scope.  So the scopes are cancelled in exactly that order,
    the network activity after the three operators. *)
Theorem C6_teardown_order flags events
  (downloadLGCs : list LoadGeneratingConnection) exit st :
  loop (normalizeFlags ExtendedStatsAvailable flags) initialState events
  = Exited exit st ->
  exists w,
    main LoadGeneratingConnection AggregateExtendedStats ExtendedStatsAvailable
      NewAggregateExtendedStats IncorporateConnectionStats flags events downloadLGCs
    = Returned exit st w
    /\ actions w
       = spec.teardownOrder (calculateExtendedStats flags && ExtendedStatsAvailable)
           downloadLGCs
    /\ spec.cancellations (actions w)
       = [proberOperatorCtx; downloadLoadGeneratorOperatorCtx;
          uploadLoadGeneratorOperatorCtx; networkActivityCtx; operatingCtx].
Proof.
  intros Hloop.
  destruct (afterLoop_spec flags st downloadLGCs) as (stats & warnings & Hafter).
  eexists. unfold main. rewrite Hloop, Hafter. split; [reflexivity |]. simpl.
  rewrite calculateExtendedStats_normalizeFlags.
  split; [reflexivity | apply cancellations_teardownOrder].
Qed.

(** A stabilizer that has seen no measurement does not report stable. *)
Hypothesis fresh_throughput_unstable :
  IsStable (NewStabilizer (State := ThroughputStabilizer)) = false.
Hypothesis fresh_probe_unstable :
  IsStable (NewStabilizer (State := ProbeStabilizer)) = false.

(** C3.  When [main] returns, the loop was left by its condition
    exactly when the three stabilizers (download throughput, upload
    throughput, probe) all report stable at that moment; the flag
    [testRanToStability] is true exactly in that case and false after a
    timeout.  After a timeout the results are still printed, right after
    the line that calls them estimates; after stabilization that line is
    not printed.  The Prometheus file, when written, carries the flag. *)
Theorem C3_stability_flag flags events
  (downloadLGCs : list LoadGeneratingConnection) exit st w :
  main LoadGeneratingConnection AggregateExtendedStats ExtendedStatsAvailable
    NewAggregateExtendedStats IncorporateConnectionStats flags events downloadLGCs
  = Returned exit st w ->
  (exit = Stabilized <->
   IsStable (downloadThroughputStabilizer st)
   && IsStable (uploadThroughputStabilizer st)
   && IsStable (probeStabilizer st) = true)
  /\ (testRanToStability st = true <-> exit = Stabilized)
  /\ (exit = TimedOut ->
      exists before after,
        stdout w
        = before
          ++ [ResultsAreEstimates; RpmP90 (p90Rpm st); RpmTrimmedMean (meanRpm st)]
          ++ after)
  /\ (exit = Stabilized ->
      ~ In ResultsAreEstimates (stdout w)
      /\ In (RpmP90 (p90Rpm st)) (stdout w)
      /\ In (RpmTrimmedMean (meanRpm st)) (stdout w))
  /\ (forall name buffer,
        In (name, buffer) (files w) ->
        In (networkquality_test_stable
              match exit with Stabilized => 1 | TimedOut => 0 end) buffer).
Proof.
  intros Hmain. apply main_Returned in Hmain. destruct Hmain as [Hloop Hafter].
  pose proof (loop_exit _ _ _ _ _ Hloop) as Hexit.
  destruct (loop_flags_agree _ events initialState exit st
              (eq_sym fresh_probe_unstable)
              (eq_sym fresh_throughput_unstable)
              (eq_sym fresh_throughput_unstable) Hloop) as (Hp & Hd & Hu).
  assert (Hran : testRanToStability st
                 = match exit with Stabilized => true | TimedOut => false end).
  { rewrite <- Hexit. unfold testRanToStability, allStable.
    destruct (responsivenessIsStable st), (downloadThroughputIsStable st),
      (uploadThroughputIsStable st); reflexivity. }
  destruct (afterLoop_spec flags st downloadLGCs) as (stats & warnings & Hspec).
  rewrite Hspec in Hafter. inversion Hafter as [Hw]. clear Hafter Hspec. simpl.
  rewrite Hran.
  split; [| split; [| split; [| split]]].
  - unfold allStable in Hexit. rewrite Hp, Hd, Hu in Hexit.
    destruct exit,
      (IsStable (probeStabilizer st)),
      (IsStable (downloadThroughputStabilizer st)),
      (IsStable (uploadThroughputStabilizer st)); simpl in *;
      split; intros; congruence.
  - destruct exit; split; intros; congruence.
  - intros ->. simpl. eexists. eexists. apply app_three_in_the_middle.
  - intros ->. simpl. split; [| split].
    + intros Hin.
      repeat match type of Hin with
             | context [if ?b then _ else _] => destruct b
             end;
        simpl in Hin; intuition discriminate.
    + apply in_or_app. right. apply in_or_app. right. simpl. auto.
    + apply in_or_app. right. apply in_or_app. right. simpl. auto.
  - intros name buffer Hin.
    destruct (0 <? Z.of_nat (String.length
                               (prometheusStatsFilename
                                  (normalizeFlags ExtendedStatsAvailable flags))));
      [| contradiction].
    destruct Hin as [[= <- <-] | []]. unfold prometheusBuffer. rewrite Hran.
    left. now destruct exit.
Qed.

End OrchestratorProperties.

Lemma C5_witness :
  exists st',
    scenario.probe scenario.initial (scenario.probeOf networkQuality.Foreign 300 3)
    = Some st'
    /\ networkQuality.foreignRtts st'
       = [] ++ repeat (time.Seconds 300000000%Z / float64_of_Z 3%Z)%float (Z.to_nat 3)
    /\ len (networkQuality.foreignRtts st') = 0 + 3
    /\ networkQuality.selfRtts st' = [].
Proof.
  exact (proj1 (C5_probe_measurement_split scenario.flags scenario.initial
                  (scenario.probeOf networkQuality.Foreign 300 3))
           eq_refl ltac:(vm_compute; split; discriminate)).
Defined.

(** C5 as it was stated fails on the sum: a foreign measurement of 7 ms
    over three round trips adds three times 0.0023333333333333335, whose
    sum is 0.007000000000000001 and not the duration 0.007. *)
Lemma C5_counterexample :
  option_map networkQuality.foreignRtts
    (scenario.probe scenario.initial (scenario.probeOf networkQuality.Foreign 7 3))
  = Some [0.0023333333333333335; 0.0023333333333333335; 0.0023333333333333335]%float
  /\ time.Seconds 7000000 = 0.007%float
  /\ spec.sum [0.0023333333333333335; 0.0023333333333333335; 0.0023333333333333335]%float
     = 0.007000000000000001%float
  /\ (0.007000000000000001 =? 0.007)%float = false.
Proof. vm_compute. repeat split. Qed.

(** *** The scenarios *)

Lemma stableRun_wellFormed : Forall spec.wellFormed scenario.stableRun.
Proof.
  repeat constructor; simpl; unfold utilities.max_int; lia.
Qed.

Lemma timeoutRun_wellFormed : Forall spec.wellFormed scenario.timeoutRun.
Proof.
  repeat constructor; simpl; unfold utilities.max_int; lia.
Qed.

(** The stable run of the specification: constant throughput and
    latencies of 0.1 s per round trip end by stabilization with an RPM
    of 600. *)
Example stableRun_reports_600 :
  scenario.run scenario.stableRun [1; 2]%nat
  = networkQuality.Returned networkQuality.Stabilized
      scenario.stableState scenario.stableWorld
  /\ In (networkQuality.RpmP90 600) (networkQuality.stdout scenario.stableWorld)
  /\ In (networkQuality.RpmTrimmedMean 600)
        (networkQuality.stdout scenario.stableWorld).
Proof. vm_compute. intuition. Qed.

Lemma C2_witness :
  (exists before after,
     networkQuality.stdout scenario.stableWorld
     = before
       ++ [ networkQuality.RpmP90
              (60 / spec.mean
                      (networkQuality.Percentile
                         (networkQuality.selfRtts scenario.stableState) 90)
                      (networkQuality.Percentile
                         (networkQuality.foreignRtts scenario.stableState) 90))%float;
            networkQuality.RpmTrimmedMean
              (60 / spec.mean
                      (networkQuality.CalculateAverage
                         (networkQuality.DoubleSidedTrim
                            (networkQuality.selfRtts scenario.stableState) 10))
                      (networkQuality.CalculateAverage
                         (networkQuality.DoubleSidedTrim
                            (networkQuality.foreignRtts scenario.stableState) 10)))%float ]
       ++ after)
  /\ exists consumed rest,
       scenario.stableRun = consumed ++ rest
       /\ networkQuality.selfRtts scenario.stableState = spec.selfLatencies consumed
       /\ networkQuality.foreignRtts scenario.stableState
          = spec.foreignLatencies consumed.
Proof.
  assert (Hrun : networkQuality.main nat (list nat) true [] scenario.incorporate
                   scenario.flags scenario.stableRun [1; 2]%nat
                 = networkQuality.Returned networkQuality.Stabilized
                     scenario.stableState scenario.stableWorld)
    by (vm_compute; reflexivity).
  destruct (C2_final_rpm nat (list nat) true [] scenario.incorporate
              scenario.flags scenario.stableRun [1; 2]%nat
              networkQuality.Stabilized scenario.stableState scenario.stableWorld
              Hrun) as [Hprinted Hseries].
  split; [exact Hprinted | exact (Hseries stableRun_wellFormed)].
Defined.

Lemma C3_witness :
  (networkQuality.testRanToStability scenario.timeoutState = true
   <-> networkQuality.TimedOut = networkQuality.Stabilized)
  /\ exists before after,
       networkQuality.stdout scenario.timeoutWorld
       = before
         ++ [ networkQuality.ResultsAreEstimates;
              networkQuality.RpmP90 (networkQuality.p90Rpm scenario.timeoutState);
              networkQuality.RpmTrimmedMean
                (networkQuality.meanRpm scenario.timeoutState) ]
         ++ after.
Proof.
  assert (Hrun : networkQuality.main nat (list nat) true [] scenario.incorporate
                   scenario.flags scenario.timeoutRun [1; 2]%nat
                 = networkQuality.Returned networkQuality.TimedOut
                     scenario.timeoutState scenario.timeoutWorld)
    by (vm_compute; reflexivity).
  destruct (C3_stability_flag
              (ThroughputStabilizer := nat) (ProbeStabilizer := nat)
              (throughputStabilizer :=
                 scenario.secondMeasurement networkQuality.ThroughputDataPoint)
              (probeStabilizerOps :=
                 scenario.secondMeasurement networkQuality.ProbeDataPoint)
              nat (list nat) true [] scenario.incorporate
              eq_refl eq_refl
              scenario.flags scenario.timeoutRun [1; 2]%nat
              networkQuality.TimedOut scenario.timeoutState scenario.timeoutWorld
              Hrun) as (_ & Hflag & Hestimates & _).
  split; [exact Hflag | exact (Hestimates eq_refl)].
Defined.

Lemma C6_witness :
  exists w,
    networkQuality.main nat (list nat) true [] scenario.incorporate
      scenario.flags scenario.timeoutRun [1; 2]%nat
    = networkQuality.Returned networkQuality.TimedOut scenario.timeoutState w
    /\ networkQuality.actions w = spec.teardownOrder (true && true) [1; 2]%nat
    /\ spec.cancellations (networkQuality.actions w)
       = [ networkQuality.proberOperatorCtx;
           networkQuality.downloadLoadGeneratorOperatorCtx;
           networkQuality.uploadLoadGeneratorOperatorCtx;
           networkQuality.networkActivityCtx;
           networkQuality.operatingCtx ].
Proof.
  assert (Hloop : networkQuality.loop (networkQuality.normalizeFlags true scenario.flags)
                    networkQuality.initialState scenario.timeoutRun
                  = networkQuality.Exited networkQuality.TimedOut scenario.timeoutState)
    by (vm_compute; reflexivity).
  exact (C6_teardown_order nat (list nat) true [] scenario.incorporate
           scenario.flags scenario.timeoutRun [1; 2]%nat
           networkQuality.TimedOut scenario.timeoutState Hloop).
Defined.

(** * Further properties of the code *)

(** ** Helpers of package utilities *)

Lemma fold_left_append_map {S F : Type} (f : S -> F) (l : list S) : forall acc,
  fold_left (fun result s => result ++ [f s]) l acc = acc ++ map f l.
Proof.
  induction l as [| x l IH]; intros acc; simpl.
  - now rewrite app_nil_r.
  - rewrite IH. now rewrite <- app_assoc.
Qed.

(** [Fmap] is the map of the slice: same length, same order, the
    image of the element at each index at that index. *)
Theorem Fmap_maps {S F : Type} (elements : list S) (mapper : S -> F) :
  utilities.Fmap elements mapper = map mapper elements
  /\ len (utilities.Fmap elements mapper) = len elements
  /\ forall i, index (utilities.Fmap elements mapper) i = option_map mapper (index elements i).
Proof.
  assert (H : utilities.Fmap elements mapper = map mapper elements).
  { unfold utilities.Fmap. now rewrite fold_left_append_map. }
  rewrite H. split; [reflexivity |]. split.
  - unfold len. now rewrite length_map.
  - intros i. unfold index. destruct (i <? 0); [reflexivity |].
    apply nth_error_map.
Qed.

(** two [Fmap]s in a row are one [Fmap] with the composed mapper. *)
Theorem Fmap_compose {S F G : Type} (elements : list S)
  (first : S -> F) (second : F -> G) :
  utilities.Fmap (utilities.Fmap elements first) second
  = utilities.Fmap elements (fun s => second (first s)).
Proof.
  unfold utilities.Fmap. rewrite !fold_left_append_map. simpl. apply map_map.
Qed.

(** what [Some] wraps, [GetSome] gives back; [GetSome] of [None]
    panics; in general [GetSome] returns the value when [IsSome] holds
    and panics otherwise, and [IsNone] is the negation of [IsSome]. *)
Theorem Optional_GetSome {S : Type} (v zero : S) (optional : utilities.Optional S) :
  utilities.GetSome (utilities.Some_ v) = Ok v
  /\ utilities.IsSome (utilities.Some_ v) = true
  /\ utilities.GetSome (utilities.None_ zero) = Panic
  /\ utilities.IsNone (utilities.None_ zero) = true
  /\ utilities.IsNone optional = negb (utilities.IsSome optional)
  /\ utilities.GetSome optional
     = if utilities.IsSome optional then Ok (utilities.value optional) else Panic.
Proof.
  repeat split; try reflexivity.
  unfold utilities.GetSome, utilities.IsSome. now destruct (utilities.some optional).
Qed.

(** the text of an optional never shows its value: it is
    "Some: true" for every optional that holds one, "None" otherwise. *)
Theorem Optional_String_hides_value {S : Type} (optional : utilities.Optional S) (v1 v2 : S) :
  utilities.String_ optional = (if utilities.IsSome optional then "Some: true" else "None")%string
  /\ utilities.String_ (utilities.Some_ v1) = utilities.String_ (utilities.Some_ v2).
Proof.
  split; [| reflexivity].
  unfold utilities.String_, utilities.IsSome. now destruct (utilities.some optional).
Qed.

Lemma GenerateUniqueIds_from (n : nat) : forall c,
  0 <= c -> c + Z.of_nat n < 2 ^ 64 ->
  utilities.GenerateUniqueIds n c = map (fun i => c + Z.of_nat i) (seq 1 n).
Proof.
  induction n as [| n IH]; intros c Hc Hn; [reflexivity |].
  cbn [utilities.GenerateUniqueIds utilities.GenerateUniqueId].
  unfold utilities.wrap_uint64. rewrite Z.mod_small by lia.
  rewrite IH by lia. cbn [seq map]. f_equal.
  rewrite <- (seq_shift n 1), map_map. apply map_ext. intros i. lia.
Qed.

(** as long as fewer than [2^64] identifiers were handed out, the
    calls return 1, 2, 3, ... in this order: never 0, never the same
    identifier twice. *)
Theorem GenerateUniqueId_counts (n : nat) :
  Z.of_nat n < 2 ^ 64 ->
  utilities.GenerateUniqueIds n utilities.nextConnectionId_initial = map Z.of_nat (seq 1 n)
  /\ NoDup (utilities.GenerateUniqueIds n utilities.nextConnectionId_initial)
  /\ ~ In 0 (utilities.GenerateUniqueIds n utilities.nextConnectionId_initial).
Proof.
  intros Hn. unfold utilities.nextConnectionId_initial.
  rewrite GenerateUniqueIds_from by lia.
  assert (H : map (fun i => 0 + Z.of_nat i) (seq 1 n) = map Z.of_nat (seq 1 n))
    by (apply map_ext; intros; lia).
  rewrite H. split; [reflexivity |]. split.
  - apply Finite.Injective_map_NoDup; [| apply seq_NoDup].
    intros a b Hab. lia.
  - rewrite in_map_iff. intros (i & Hi & Hin). apply in_seq in Hin. lia.
Qed.

Lemma GenerateUniqueId_witness :
  utilities.GenerateUniqueIds 4 utilities.nextConnectionId_initial = map Z.of_nat (seq 1 4)
  /\ NoDup (utilities.GenerateUniqueIds 4 utilities.nextConnectionId_initial)
  /\ ~ In 0 (utilities.GenerateUniqueIds 4 utilities.nextConnectionId_initial).
Proof. exact (GenerateUniqueId_counts 4 ltac:(vm_compute; reflexivity)). Defined.

(** *** [FilenameAppend] *)

Lemma string_length_append (s t : string) :
  String.length (s ++ t) = (String.length s + String.length t)%nat.
Proof. induction s as [| c s IH]; simpl; [reflexivity | now rewrite IH]. Qed.

Lemma string_append_assoc (s t u : string) :
  ((s ++ t) ++ u)%string = (s ++ t ++ u)%string.
Proof. induction s as [| c s IH]; simpl; [reflexivity | now rewrite IH]. Qed.

Lemma cut_without (sep : ascii) (s : string) :
  ~ In sep (list_ascii_of_string s) -> utilities.cut sep s = None.
Proof.
  induction s as [| c s IH]; simpl; [reflexivity |]. intros Hnot.
  destruct (Ascii.eqb_spec c sep) as [-> | _]; [tauto |].
  rewrite IH; [reflexivity | tauto].
Qed.

Lemma cut_at_first (sep : ascii) (base rest : string) :
  ~ In sep (list_ascii_of_string base) ->
  utilities.cut sep (base ++ String sep rest) = Some (base, rest).
Proof.
  induction base as [| c base IH]; simpl; intros Hnot.
  - now rewrite Ascii.eqb_refl.
  - destruct (Ascii.eqb_spec c sep) as [-> | _]; [tauto |].
    rewrite IH; [reflexivity | tauto].
Qed.

Lemma cut_Some (sep : ascii) (s : string) : forall before after,
  utilities.cut sep s = Some (before, after) ->
  s = (before ++ String sep after)%string
  /\ ~ In sep (list_ascii_of_string before).
Proof.
  induction s as [| c s IH]; simpl; intros before after; [discriminate |].
  destruct (Ascii.eqb_spec c sep) as [-> | Hne].
  - intros [= <- <-]. simpl. tauto.
  - destruct (utilities.cut sep s) as [[b a] |]; [| discriminate].
    intros [= <- <-]. destruct (IH b a eq_refl) as [-> Hb]. simpl.
    split; [reflexivity |]. intros [H | H]; [congruence | tauto].
Qed.

(** [FilenameAppend] puts the appendage right before the first
    "." of the file name, and at its end when the name has no ".". *)
Theorem FilenameAppend_before_first_dot (base rest appendage : string) :
  ~ In "."%char (list_ascii_of_string base) ->
  utilities.FilenameAppend base appendage = (base ++ appendage)%string
  /\ utilities.FilenameAppend (base ++ "." ++ rest) appendage
     = (base ++ appendage ++ "." ++ rest)%string.
Proof.
  intros Hbase. unfold utilities.FilenameAppend, utilities.SplitN_2. split.
  - now rewrite cut_without.
  - change ("." ++ rest)%string with (String "."%char rest).
    rewrite cut_at_first by assumption. simpl.
    now rewrite string_append_assoc.
Qed.

Lemma FilenameAppend_witness :
  utilities.FilenameAppend "log" "-self" = ("log" ++ "-self")%string
  /\ utilities.FilenameAppend ("log" ++ "." ++ "tar.gz") "-self"
     = ("log" ++ "-self" ++ "." ++ "tar.gz")%string.
Proof.
  exact (FilenameAppend_before_first_dot "log" "tar.gz" "-self"
           ltac:(simpl; intuition discriminate)).
Defined.

(** [FilenameAppend] only adds: the result is as long as the name
    and the appendage together, and it always holds the appendage after
    the part of the name that precedes its first ".". *)
Theorem FilenameAppend_length (filename appendage : string) :
  String.length (utilities.FilenameAppend filename appendage)
  = (String.length filename + String.length appendage)%nat.
Proof.
  unfold utilities.FilenameAppend, utilities.SplitN_2.
  destruct (utilities.cut "." filename) as [[before after] |] eqn:E; simpl.
  - apply cut_Some in E. destruct E as [-> _].
    rewrite ?string_length_append. cbn [String.length]. lia.
  - apply string_length_append.
Qed.

(** *** [Iota] *)

Lemma index_Iota_loop (n : nat) : forall counter i,
  0 <= i < Z.of_nat n ->
  index (utilities.Iota_loop counter n) i = Some (counter + i).
Proof.
  induction n as [| n IH]; intros counter i Hi; [lia |].
  unfold index. destruct (Z.ltb_spec i 0); [lia |].
  destruct (Z.eq_dec i 0) as [-> | Hne].
  - simpl. now rewrite Z.add_0_r.
  - replace (Z.to_nat i) with (Datatypes.S (Z.to_nat (i - 1))) by lia.
    simpl. specialize (IH (counter + 1) (i - 1)). unfold index in IH.
    destruct (Z.ltb_spec (i - 1) 0); [lia |].
    rewrite IH by lia. f_equal. lia.
Qed.

(** [Iota low high] with [low <= high] is the slice
    [low, low+1, ..., high-1]: [high - low] elements, the one at index
    [i] being [low + i]; with [high < low] the allocation panics. *)
Theorem Iota_range (low high : Z) :
  - 2 ^ 63 <= high - low <= utilities.max_int ->
  (low <= high ->
   exists made,
     utilities.Iota low high = Some made
     /\ len made = high - low
     /\ forall i, 0 <= i < high - low -> index made i = Some (low + i))
  /\ (high < low -> utilities.Iota low high = None).
Proof.
  intros Hfit. unfold utilities.Iota. rewrite wrap_int_small by assumption.
  split.
  - intros Hle. destruct (Z.ltb_spec (high - low) 0); [lia |].
    eexists. split; [reflexivity |]. split.
    + unfold len. rewrite Iota_loop_length. lia.
    + intros i Hi. apply index_Iota_loop. lia.
  - intros Hlt. destruct (Z.ltb_spec (high - low) 0); [reflexivity | lia].
Qed.

Lemma Iota_witness :
  (exists made,
     utilities.Iota 2 5 = Some made
     /\ len made = 5 - 2
     /\ forall i, 0 <= i < 5 - 2 -> index made i = Some (2 + i))
  /\ utilities.Iota 5 2 = None.
Proof.
  destruct (Iota_range 2 5 ltac:(vm_compute; split; discriminate)) as [Hup _].
  destruct (Iota_range 5 2 ltac:(vm_compute; split; discriminate)) as [_ Hdown].
  split; [exact (Hup ltac:(lia)) | exact (Hdown ltac:(lia))].
Defined.

(** *** [CalculatePercentile] on the other percentiles *)

Section PercentileMore.

Variable S : Type.
Variable less : S -> S -> bool.
Variable sort_Slice : (S -> S -> bool) -> list S -> list S.
Hypothesis sort_Slice_permutes :
  forall l, Permutation (sort_Slice less l) l.

(** on a non-empty slice [CalculatePercentile] returns a value
    exactly for [-100 < percentile < 100] (a negative percentile
    included); for every other percentile, as long as the product that
    gives the index does not overflow, the indexing panics. *)
Theorem CalculatePercentile_returns_iff (elements : list S) (percentile : Z) :
  elements <> [] ->
  - 2 ^ 63 <= len elements * Z.quot percentile 100 <= utilities.max_int ->
  (exists x,
     snd (utilities.CalculatePercentile less sort_Slice elements percentile) = Some x)
  <-> - 100 < percentile < 100.
Proof.
  intros Hne Hfit.
  pose proof (len_Permutation _ _ (sort_Slice_permutes elements)) as Hsame.
  assert (Hpos : 0 < len elements).
  { destruct elements; [contradiction | unfold len; simpl; lia]. }
  unfold utilities.CalculatePercentile, utilities.percentileIdx. simpl.
  rewrite Hsame, wrap_int_small by assumption.
  rewrite index_Some_iff, Hsame.
  pose proof (Z.quot_small_iff percentile 100 ltac:(lia)) as Hq.
  split.
  - intros Hidx. assert (Z.quot percentile 100 = 0) by nia.
    apply Hq in H. lia.
  - intros Hp. assert (Z.quot percentile 100 = 0) by (apply Hq; lia).
    rewrite H. lia.
Qed.

End PercentileMore.

Lemma CalculatePercentile_returns_witness :
  (exists x,
     snd (utilities.CalculatePercentile Z.ltb utilities.insertion_sort [30; 10; 20] (-50))
     = Some x)
  <-> - 100 < - 50 < 100.
Proof.
  exact (CalculatePercentile_returns_iff Z Z.ltb utilities.insertion_sort
           insertion_sort_Permutation [30; 10; 20] (-50)
           ltac:(discriminate) ltac:(vm_compute; split; discriminate)).
Defined.

(** ** The connection collection, continued *)

Section CollectionMore.

Variable LoadGeneratingConnection : Type.

Implicit Types (collection : lgc.LoadGeneratingConnectionCollection LoadGeneratingConnection).
Implicit Types (conn : LoadGeneratingConnection).

(** [Get] never changes the collection, whatever it answers: the
    elements stay, and the mutex is left as it was found. *)
Theorem Get_leaves_collection collection idx :
  fst (lgc.Get collection idx) = collection.
Proof.
  destruct (lgc.locked (lgc.Lock collection)) eqn:H.
  - rewrite Get_locked by assumption.
    destruct (idx >? lgc.Len collection); [reflexivity |].
    now destruct (index (lgc.LGCs collection) idx).
  - now rewrite Get_unlocked.
Qed.

(** with the mutex held, the connection just appended is the one
    [Get] returns at the index that was the length before. *)
Theorem Append_then_Get collection conn :
  lgc.locked (lgc.Lock collection) = true ->
  let collection' := fst (lgc.Append collection conn) in
  lgc.Get collection' (lgc.Len collection) = (collection', Ok conn)
  /\ lgc.Len collection' = lgc.Len collection + 1.
Proof.
  intros Hheld. rewrite Append_locked by assumption. simpl.
  rewrite Get_locked by assumption. unfold lgc.Len. simpl.
  rewrite len_app.
  destruct (Z.gtb_spec (len (lgc.LGCs collection))
              (len (lgc.LGCs collection) + len [conn])) as [Hgt | _];
    [unfold len in Hgt; simpl in Hgt; lia |].
  rewrite index_middle. split; reflexivity.
Qed.

(** with the mutex held, a negative index passes the check of
    [Get] (which only looks for indices that are too large) and the
    indexing panics. *)
Theorem Get_negative_index_panics collection idx :
  lgc.locked (lgc.Lock collection) = true ->
  idx < 0 ->
  lgc.Get collection idx = (collection, Panic).
Proof.
  intros Hheld Hneg. rewrite Get_locked by assumption.
  destruct (Z.gtb_spec idx (lgc.Len collection)) as [Hgt | _].
  - unfold lgc.Len in Hgt. pose proof (len_nonneg (lgc.LGCs collection)). lia.
  - now rewrite (proj2 (index_None_iff _ _)) by lia.
Qed.

Lemma run_appends (conns : list LoadGeneratingConnection) : forall collection,
  lgc.locked (lgc.Lock collection) = true ->
  lgc.run (map lgc.OpAppend conns) collection
  = {| lgc.Lock := lgc.Lock collection;
       lgc.LGCs := lgc.LGCs collection ++ conns |}.
Proof.
  induction conns as [| conn conns IH]; intros collection Hheld; simpl.
  - rewrite app_nil_r. now destruct collection.
  - rewrite Append_locked by assumption.
    rewrite IH by assumption. simpl. now rewrite <- app_assoc.
Qed.

(** a new collection is empty and its mutex is free, so [Get]
    and [Append] refuse to work on it; once the mutex is taken, appending
    connections one by one yields a pool that holds exactly them, in the
    order of the calls, and [Len] is their number. *)
Theorem fresh_collection_fills_in_order (conns : list LoadGeneratingConnection)
  (conn : LoadGeneratingConnection) (idx : Z) :
  let fresh := lgc.NewLoadGeneratingConnectionCollection LoadGeneratingConnection in
  lgc.Len fresh = 0
  /\ lgc.Append fresh conn = (fresh, Err "collection is unlocked")
  /\ lgc.Get fresh idx = (fresh, Err "collection is unlocked")
  /\ lgc.LGCs (lgc.run (lgc.OpLock :: map lgc.OpAppend conns) fresh) = conns
  /\ lgc.Len (lgc.run (lgc.OpLock :: map lgc.OpAppend conns) fresh) = len conns.
Proof.
  intros fresh. split; [reflexivity |].
  split; [now apply Append_unlocked |].
  split; [now apply Get_unlocked |].
  assert (H : lgc.run (lgc.OpLock :: map lgc.OpAppend conns) fresh
              = {| lgc.Lock := {| lgc.locked := true |}; lgc.LGCs := conns |}).
  { simpl. now rewrite run_appends. }
  rewrite H. split; reflexivity.
Qed.

End CollectionMore.

Lemma Append_then_Get_witness :
  lgc.Get (fst (lgc.Append (scenario.pool true [7; 8]%nat) 9%nat))
          (lgc.Len (scenario.pool true [7; 8]%nat))
  = (fst (lgc.Append (scenario.pool true [7; 8]%nat) 9%nat), Ok 9%nat)
  /\ lgc.Len (fst (lgc.Append (scenario.pool true [7; 8]%nat) 9%nat))
     = lgc.Len (scenario.pool true [7; 8]%nat) + 1.
Proof.
  exact (Append_then_Get nat (scenario.pool true [7; 8]%nat) 9%nat eq_refl).
Defined.

Lemma Get_negative_index_witness :
  lgc.Get (scenario.pool true [7; 8]%nat) (-1)
  = (scenario.pool true [7; 8]%nat, Panic).
Proof.
  exact (Get_negative_index_panics nat (scenario.pool true [7; 8]%nat) (-1)
           eq_refl ltac:(lia)).
Defined.

(** ** The orchestrator, continued *)


Section LoopMore.

Import networkQuality.

Context {ThroughputStabilizer ProbeStabilizer SimpleQualityAttenuation : Type}.
Context {throughputStabilizer : Stabilizer ThroughputDataPoint ThroughputStabilizer}.
Context {probeStabilizerOps : Stabilizer ProbeDataPoint ProbeStabilizer}.
Context {qualityAttenuation : QualityAttenuation SimpleQualityAttenuation}.
Context {seriesStatistics : SeriesStatistics}.

Implicit Types (st : TestState ThroughputStabilizer ProbeStabilizer SimpleQualityAttenuation).
Implicit Types (flags : Flags) (events : list Event).

(** A run over [first ++ more] is the run over [first], resumed on
    [more] if it is still waiting. *)
Lemma loop_app flags (first more : list Event) : forall st,
  loop flags st (first ++ more)
  = match loop flags st first with
    | Waiting st1 => loop flags st1 more
    | stopped => stopped
    end.
Proof.
  induction first as [| event first IH]; intros st.
  - simpl. destruct (allStable st) eqn:E; [| reflexivity].
    destruct more; simpl; now rewrite E.
  - simpl. destruct (allStable st); [reflexivity |].
    destruct event as [m | m | m |]; try apply IH; [| reflexivity].
    destruct (onProbe flags st m); [apply IH | reflexivity].
Qed.

(** The loop reads its events from left to right and stops for good:
    once it is left (or has panicked), further events change nothing;
    while it waits, a run over [first ++ more] is the run over [more]
    resumed from the state reached after [first]. *)
Theorem loop_resumes flags (first more : list Event) st :
  loop flags st (first ++ more)
  = match loop flags st first with
    | Waiting st1 => loop flags st1 more
    | stopped => stopped
    end.
Proof. apply loop_app. Qed.


Lemma loop_Waiting_unstable flags events : forall st st1,
  loop flags st events = Waiting st1 -> allStable st1 = false.
Proof.
  induction events as [| event events IH]; intros st st1; simpl;
    destruct (allStable st) eqn:E; try discriminate.
  - intros [= <-]. exact E.
  - destruct event as [m | m | m |]; try apply IH; [| discriminate].
    destruct (onProbe flags st m); [apply IH | discriminate].
Qed.

(** the firing of the timeout ends the loop at once if it is still
    waiting then: with the state reached on the events before it, and
    whatever the events after it; if the loop was left before (all
    stable) or panicked, the timeout changes nothing. *)
Theorem timeout_ends_waiting flags (first more : list Event) st :
  loop flags st (first ++ TimeoutFired :: more)
  = match loop flags st first with
    | Waiting st1 => Exited TimedOut st1
    | stopped => stopped
    end.
Proof.
  rewrite loop_app.
  destruct (loop flags st first) as [st1 | |] eqn:E; try reflexivity.
  apply loop_Waiting_unstable in E. simpl. now rewrite E.
Qed.



End LoopMore.

Section OrchestratorMore.

Import networkQuality.

Context {ThroughputStabilizer ProbeStabilizer SimpleQualityAttenuation : Type}.
Context {throughputStabilizer : Stabilizer ThroughputDataPoint ThroughputStabilizer}.
Context {probeStabilizerOps : Stabilizer ProbeDataPoint ProbeStabilizer}.
Context {qualityAttenuation : QualityAttenuation SimpleQualityAttenuation}.
Context {seriesStatistics : SeriesStatistics}.

Variable LoadGeneratingConnection : Type.
Variable AggregateExtendedStats : Type.
Variable ExtendedStatsAvailable : bool.
Variable NewAggregateExtendedStats : AggregateExtendedStats.
Variable IncorporateConnectionStats :
  AggregateExtendedStats -> LoadGeneratingConnection ->
  AggregateExtendedStats * option string.

Implicit Types (st : TestState ThroughputStabilizer ProbeStabilizer SimpleQualityAttenuation).
Implicit Types (flags : Flags) (events : list Event).
Implicit Types (w : World SimpleQualityAttenuation LoadGeneratingConnection AggregateExtendedStats).


(** *** Extended statistics *)

Lemma aggregateLoop_fold (rest : list LoadGeneratingConnection) :
  forall (pre : list LoadGeneratingConnection)
         (extendedStats : AggregateExtendedStats) w,
    aggregateLoop LoadGeneratingConnection AggregateExtendedStats
      IncorporateConnectionStats
      (utilities.Iota_loop (len pre) (List.length rest))
      {| lgc.Lock := {| lgc.locked := true |}; lgc.LGCs := pre ++ rest |}
      extendedStats w
    = ({| actions := actions w ++ map ReadConnectionStats rest;
          stdout := stdout w;
          stderr :=
            stderr w
            ++ snd (spec.incorporateAll IncorporateConnectionStats extendedStats rest);
          files := files w |},
       Some (fst (spec.incorporateAll IncorporateConnectionStats extendedStats rest))).
Proof.
  induction rest as [| x rest IH]; intros pre extendedStats [a o e f].
  - simpl. unfold ret. now rewrite !app_nil_r.
  - cbn [spec.incorporateAll]. simpl.
    rewrite Get_locked by reflexivity. unfold lgc.Len. simpl.
    rewrite len_app.
    destruct (Z.gtb_spec (len pre) (len pre + len (x :: rest))) as [Hgt | _];
      [pose proof (len_nonneg (x :: rest)); lia |].
    rewrite index_middle. unfold bind at 1. simpl.
    destruct (IncorporateConnectionStats extendedStats x) as [stats1 err] eqn:E.
    assert (Hnext : len (pre ++ [x]) = len pre + 1)
      by (rewrite len_app; reflexivity).
    rewrite <- Hnext.
    replace (pre ++ x :: rest) with ((pre ++ [x]) ++ rest)
      by (now rewrite <- app_assoc).
    destruct (spec.incorporateAll IncorporateConnectionStats stats1 rest)
      as [result warnings] eqn:Eall.
    destruct err as [msg |]; unfold bind, Fprintf_stderr, ret; simpl;
      rewrite IH, Eall; simpl; now rewrite <- ?app_assoc, ?app_nil_r.
Qed.

Lemma report_effects flags st (extendedStats : AggregateExtendedStats) w :
  exists w' lines,
    report LoadGeneratingConnection AggregateExtendedStats flags st extendedStats w
    = (w', Some tt)
    /\ actions w' = actions w
    /\ stdout w' = stdout w ++ lines
    /\ stderr w' = stderr w
    /\ (calculateExtendedStats flags = true ->
        exists before, lines = before ++ [ExtendedStats extendedStats])
    /\ (calculateExtendedStats flags = false ->
        forall stats, ~ In (ExtendedStats stats) lines).
Proof.
  destruct w as [a o e f].
  unfold report, bind, when, Printf, WriteFile, ret.
  destruct (debugCliFlag flags), (printQualityAttenuation flags),
    (testRanToStability st), (calculateExtendedStats flags),
    (0 <? Z.of_nat (String.length (prometheusStatsFilename flags)));
    simpl;
    (eexists; eexists; split; [reflexivity |]);
    simpl; rewrite <- ?app_assoc; simpl;
    (split; [reflexivity |]); (split; [reflexivity |]); (split; [reflexivity |]);
    (split;
     [ intros Hc; try discriminate;
       match goal with
       | |- exists before, ?l = _ => exists (removelast l); reflexivity
       end
     | intros Hc stats; try discriminate; simpl; intuition discriminate ]).
Qed.

Lemma aggregateExtendedStats_fold (downloadLGCs : list LoadGeneratingConnection) w :
  aggregateExtendedStats LoadGeneratingConnection AggregateExtendedStats
    NewAggregateExtendedStats IncorporateConnectionStats downloadLGCs w
  = ({| actions := actions w ++ map ReadConnectionStats downloadLGCs;
        stdout := stdout w;
        stderr :=
          stderr w
          ++ snd (spec.incorporateAll IncorporateConnectionStats
                    NewAggregateExtendedStats downloadLGCs);
        files := files w |},
     Some (fst (spec.incorporateAll IncorporateConnectionStats
                  NewAggregateExtendedStats downloadLGCs))).
Proof.
  unfold aggregateExtendedStats, lgc.Len, len. simpl. rewrite Nat2Z.id.
  apply (aggregateLoop_fold downloadLGCs []).
Qed.

Lemma teardown_concrete flags (downloadLGCs : list LoadGeneratingConnection) w :
  (calculateExtendedStats flags = true -> ExtendedStatsAvailable = true) ->
  teardown LoadGeneratingConnection AggregateExtendedStats ExtendedStatsAvailable
    NewAggregateExtendedStats IncorporateConnectionStats flags downloadLGCs w
  = ({| actions :=
          actions w ++ spec.teardownOrder (calculateExtendedStats flags) downloadLGCs;
        stdout := stdout w;
        stderr :=
          stderr w
          ++ (if calculateExtendedStats flags
              then snd (spec.incorporateAll IncorporateConnectionStats
                          NewAggregateExtendedStats downloadLGCs)
              else []);
        files := files w |},
     Some (if calculateExtendedStats flags
           then fst (spec.incorporateAll IncorporateConnectionStats
                       NewAggregateExtendedStats downloadLGCs)
           else NewAggregateExtendedStats)).
Proof.
  intros Havail. destruct w as [a o e f].
  unfold teardown, bind, act, ret, spec.teardownOrder.
  destruct (calculateExtendedStats flags).
  - rewrite (Havail eq_refl). cbn [actions stdout stderr files].
    rewrite aggregateExtendedStats_fold. cbn [actions stdout stderr files].
    now rewrite <- !app_assoc.
  - cbn [actions stdout stderr files].
    now rewrite <- !app_assoc, !app_nil_r.
Qed.

(** when extended statistics are requested and the platform has
    them, the statistics that the report prints last are those of the
    download connections of the pool, each incorporated once and in pool
    order, and the standard error holds one warning per connection whose
    statistics could not be added; otherwise no connection is read,
    nothing is warned and no statistics line is printed. *)
Theorem extended_stats_cover_download_pool flags events
  (downloadLGCs : list LoadGeneratingConnection) exit st w :
  main LoadGeneratingConnection AggregateExtendedStats ExtendedStatsAvailable
    NewAggregateExtendedStats IncorporateConnectionStats flags events downloadLGCs
  = Returned exit st w ->
  (calculateExtendedStats flags && ExtendedStatsAvailable = true ->
   (exists before,
      stdout w
      = before
        ++ [ExtendedStats
              (fst (spec.incorporateAll IncorporateConnectionStats
                      NewAggregateExtendedStats downloadLGCs))])
   /\ stderr w
      = snd (spec.incorporateAll IncorporateConnectionStats
               NewAggregateExtendedStats downloadLGCs))
  /\ (calculateExtendedStats flags && ExtendedStatsAvailable = false ->
      (forall stats, ~ In (ExtendedStats stats) (stdout w))
      /\ stderr w = []
      /\ forall connection, ~ In (ReadConnectionStats connection) (actions w)).
Proof.
  intros Hmain. apply main_Returned in Hmain. destruct Hmain as [_ Hafter].
  pose proof (calculateExtendedStats_normalizeFlags ExtendedStatsAvailable flags)
    as Hcalc.
  set (flags' := normalizeFlags ExtendedStatsAvailable flags) in *.
  assert (Havail : calculateExtendedStats flags' = true -> ExtendedStatsAvailable = true).
  { rewrite Hcalc. intros H. apply andb_true_iff in H. tauto. }
  unfold afterLoop, bind in Hafter.
  assert (Hprefix : exists w0,
            when LoadGeneratingConnection AggregateExtendedStats
              (debugCliFlag flags')
              (Printf LoadGeneratingConnection AggregateExtendedStats
                 (StoppingGenerators
                         (utilities.Conditional (testRanToStability st)
                            "success" "failure"))) emptyWorld
            = (w0, Some tt)
            /\ actions w0 = [] /\ stderr w0 = []
            /\ forall stats, ~ In (ExtendedStats stats) (stdout w0)).
  { unfold when, Printf, ret. destruct (debugCliFlag flags'); eexists;
      (split; [reflexivity |]); simpl; intuition discriminate. }
  destruct Hprefix as (w0 & Hw0 & Hact0 & Herr0 & Hout0).
  rewrite Hw0 in Hafter. rewrite (teardown_concrete flags' downloadLGCs w0 Havail) in Hafter.
  match type of Hafter with
  | report _ _ _ _ ?stats ?w1 = _ =>
      destruct (report_effects flags' st stats w1)
        as (w' & lines & Hreport & Hact & Hout & Herr & Hwith & Hwithout)
  end.
  rewrite Hreport in Hafter. inversion Hafter as [Hw]. subst w'. clear Hafter Hreport.
  cbn [actions stdout stderr files] in Hact, Hout, Herr.
  rewrite Hact, Hout, Herr, Hact0, Herr0. cbn [app].
  rewrite <- Hcalc. split.
  - intros Hon. rewrite Hon in *. destruct (Hwith eq_refl) as [before ->].
    split; [| reflexivity].
    exists (stdout w0 ++ before). now rewrite app_assoc.
  - intros Hoff. rewrite Hoff in *. split; [| split].
    + intros stats Hin. apply in_app_or in Hin. destruct Hin as [Hin | Hin].
      * exact (Hout0 stats Hin).
      * exact (Hwithout eq_refl stats Hin).
    + reflexivity.
    + intros connection. unfold spec.teardownOrder. simpl. intuition discriminate.
Qed.

(** the Prometheus file is written exactly when a file name was
    given, once, under that name; the stability flag in it is 1 exactly
    when all three flags were set, and its two RPM values are the ones
    printed on the RPM lines of the report. *)
Theorem prometheus_agrees_with_report flags events
  (downloadLGCs : list LoadGeneratingConnection) exit st w :
  main LoadGeneratingConnection AggregateExtendedStats ExtendedStatsAvailable
    NewAggregateExtendedStats IncorporateConnectionStats flags events downloadLGCs
  = Returned exit st w ->
  files w
  = (if String.eqb (prometheusStatsFilename flags) ""
     then []
     else [(prometheusStatsFilename flags,
            [ networkquality_test_stable
                match exit with Stabilized => 1 | TimedOut => 0 end;
              networkquality_rpm_value (p90Rpm st);
              networkquality_trimmed_rpm_value (meanRpm st);
              networkquality_download_bits_per_second (lastDownloadThroughputRate st);
              networkquality_download_connections
                (lastDownloadThroughputOpenConnectionCount st);
              networkquality_upload_bits_per_second (lastUploadThroughputRate st);
              networkquality_upload_connections
                (lastUploadThroughputOpenConnectionCount st) ])])
  /\ In (RpmP90 (p90Rpm st)) (stdout w)
  /\ In (RpmTrimmedMean (meanRpm st)) (stdout w).
Proof.
  intros Hmain. apply main_Returned in Hmain. destruct Hmain as [Hloop Hafter].
  pose proof (loop_exit _ _ _ _ _ Hloop) as Hexit.
  assert (Hran : testRanToStability st
                 = match exit with Stabilized => true | TimedOut => false end).
  { rewrite <- Hexit. unfold testRanToStability, allStable.
    destruct (responsivenessIsStable st), (downloadThroughputIsStable st),
      (uploadThroughputIsStable st); reflexivity. }
  destruct (afterLoop_spec LoadGeneratingConnection AggregateExtendedStats
              ExtendedStatsAvailable NewAggregateExtendedStats
              IncorporateConnectionStats flags st downloadLGCs)
    as (stats & warnings & Hspec).
  rewrite Hspec in Hafter. inversion Hafter as [Hw]. clear Hafter Hspec.
  cbn [files stdout].
  assert (Hname : prometheusStatsFilename (normalizeFlags ExtendedStatsAvailable flags)
                  = prometheusStatsFilename flags).
  { unfold normalizeFlags.
    now destruct (calculateExtendedStats flags && negb ExtendedStatsAvailable). }
  rewrite Hname. split; [| split].
  - unfold prometheusBuffer. rewrite Hran.
    destruct (prometheusStatsFilename flags) as [| c name]; [reflexivity |].
    simpl. now destruct exit.
  - do 3 (apply in_or_app; right). simpl. auto.
  - do 3 (apply in_or_app; right). simpl. auto.
Qed.

End OrchestratorMore.

Lemma main_returns_by_timeout_witness :
  exists exit st w,
    networkQuality.main nat (list nat) true [] scenario.incorporate
      scenario.flags scenario.timeoutRun [1; 2]%nat
    = networkQuality.Returned exit st w.
Proof.
  exact (main_returns_by_timeout nat (list nat) true [] scenario.incorporate
           scenario.flags scenario.timeoutRun [1; 2]%nat
           timeoutRun_wellFormed ltac:(simpl; tauto)).
Defined.




Lemma extended_stats_witness :
  (exists before,
     networkQuality.stdout scenario.timeoutWorld
     = before
       ++ [networkQuality.ExtendedStats
             (fst (spec.incorporateAll scenario.incorporate [] [1; 2]%nat))])
  /\ networkQuality.stderr scenario.timeoutWorld
     = snd (spec.incorporateAll scenario.incorporate [] [1; 2]%nat).
Proof.
  assert (Hrun : networkQuality.main nat (list nat) true [] scenario.incorporate
                   scenario.flags scenario.timeoutRun [1; 2]%nat
                 = networkQuality.Returned networkQuality.TimedOut
                     scenario.timeoutState scenario.timeoutWorld)
    by (vm_compute; reflexivity).
  exact (proj1 (extended_stats_cover_download_pool nat (list nat) true []
                  scenario.incorporate
                  scenario.flags scenario.timeoutRun [1; 2]%nat
                  networkQuality.TimedOut scenario.timeoutState scenario.timeoutWorld
                  Hrun) eq_refl).
Defined.

Lemma prometheus_agrees_witness :
  networkQuality.files scenario.timeoutWorld
  = (if String.eqb (networkQuality.prometheusStatsFilename scenario.flags) ""
     then []
     else [(networkQuality.prometheusStatsFilename scenario.flags,
            [ networkQuality.networkquality_test_stable 0;
              networkQuality.networkquality_rpm_value
                (networkQuality.p90Rpm scenario.timeoutState);
              networkQuality.networkquality_trimmed_rpm_value
                (networkQuality.meanRpm scenario.timeoutState);
              networkQuality.networkquality_download_bits_per_second
                (networkQuality.lastDownloadThroughputRate scenario.timeoutState);
              networkQuality.networkquality_download_connections
                (networkQuality.lastDownloadThroughputOpenConnectionCount
                   scenario.timeoutState);
              networkQuality.networkquality_upload_bits_per_second
                (networkQuality.lastUploadThroughputRate scenario.timeoutState);
              networkQuality.networkquality_upload_connections
                (networkQuality.lastUploadThroughputOpenConnectionCount
                   scenario.timeoutState) ])])
  /\ In (networkQuality.RpmP90 (networkQuality.p90Rpm scenario.timeoutState))
        (networkQuality.stdout scenario.timeoutWorld)
  /\ In (networkQuality.RpmTrimmedMean (networkQuality.meanRpm scenario.timeoutState))
        (networkQuality.stdout scenario.timeoutWorld).
Proof.
  assert (Hrun : networkQuality.main nat (list nat) true [] scenario.incorporate
                   scenario.flags scenario.timeoutRun [1; 2]%nat
                 = networkQuality.Returned networkQuality.TimedOut
                     scenario.timeoutState scenario.timeoutWorld)
    by (vm_compute; reflexivity).
  exact (prometheus_agrees_with_report nat (list nat) true [] scenario.incorporate
           scenario.flags scenario.timeoutRun [1; 2]%nat
           networkQuality.TimedOut scenario.timeoutState scenario.timeoutWorld Hrun).
Defined.
